(** * woltka/file.py: input and output files

    A shallow embedding of the functions of [woltka/file.py] that resolve
    sample files, parse mapping records, and write read maps and profile
    tables, together with the properties established about them.

    Conventions of the embedding:
    - a Python [str] is a [string]: its characters are taken to have
      codes below 256, and are compared by code, as Python does;
    - a Python [int] is a [Z];
    - a [dict] whose iteration order cannot be observed is a [gmap]; a
      [dict] or [list] whose order is observed is a [list];
    - an optional argument (default [None]) is an [option];
    - a function that can raise returns a [result]. *)

From stdpp Require Import gmap strings list fin_maps sorting pretty.
From Stdlib Require Import ZArith Ascii String.

Open Scope string_scope.
Open Scope Z_scope.

(** * Python built-ins used by the module *)

Module Py.

(** Exceptions raised, or possibly raised, by the code of the module. *)
Inductive exn : Type :=
| ValueError (msg : string)
| KeyError (key : string)
| IndexError (msg : string)
| TypeError (msg : string).

(** The outcome of a call: a returned value or a raised exception. *)
Inductive result (A : Type) : Type :=
| Return (a : A)
| Raise (e : exn).
Arguments Return {A} a.
Arguments Raise {A} e.

Definition bind {A B : Type} (r : result A) (k : A -> result B) : result B :=
  match r with
  | Return a => k a
  | Raise e => Raise e
  end.

(** The body of a [for] loop either falls through to the next iteration
    with a new state ([Next], which is also what [continue] does) or
    leaves the function ([Done]: a [return] or a [raise]). *)
Inductive flow (S R : Type) : Type :=
| Next (s : S)
| Done (r : R).
Arguments Next {S R} s.
Arguments Done {S R} r.

Section for_loop.
Context {L S R : Type}.
Variable body : L -> S -> flow S R.
Variable finish : S -> R.

(** [for x in l: body], followed by [finish] on the final state. *)
Fixpoint for_loop (l : list L) (s : S) : R :=
  match l with
  | [] => finish s
  | x :: l' =>
      match body x s with
      | Next s' => for_loop l' s'
      | Done r => r
      end
  end.

(** The state after a run of iterations, when none of them left the
    function. *)
Fixpoint iterate (l : list L) (s : S) : flow S R :=
  match l with
  | [] => Next s
  | x :: l' =>
      match body x s with
      | Next s' => iterate l' s'
      | Done r => Done r
      end
  end.
End for_loop.

(** ** Characters and strings *)

Definition TAB : string := String "009"%char "".
Definition NL : string := String "010"%char "".
Definition DQUOTE : string := String "034"%char "".

(** [str.isspace] on one character: the characters of code below 256
    that Python counts as white space. *)
Definition isspace (c : ascii) : bool :=
  match c with
  | "009" | "010" | "011" | "012" | "013"
  | "028" | "029" | "030" | "031" | " "
  | "133" | "160" => true
  | _ => false
  end%char.

(** Truth value of a [str]: non-empty. *)
Definition nonempty (s : string) : bool :=
  match s with
  | "" => false
  | String _ _ => true
  end.

(** [s.rstrip()]. *)
Fixpoint rstrip (s : string) : string :=
  match s with
  | "" => ""
  | String c s' =>
      match rstrip s' with
      | "" => if isspace c then "" else String c ""
      | r => String c r
      end
  end.

(** [s.lstrip()]. *)
Fixpoint lstrip (s : string) : string :=
  match s with
  | "" => ""
  | String c s' => if isspace c then lstrip s' else s
  end.

(** [s.strip()]. *)
Definition strip (s : string) : string := rstrip (lstrip s).

(** [s.startswith(p)]. *)
Definition startswith (s p : string) : bool := String.prefix p s.

(** [s[n:]]. *)
Fixpoint drop (n : nat) (s : string) : string :=
  match n, s with
  | O, _ => s
  | S _, "" => ""
  | S n', String _ s' => drop n' s'
  end.

(** [s[:n]]. *)
Fixpoint take (n : nat) (s : string) : string :=
  match n, s with
  | O, _ => ""
  | S _, "" => ""
  | S n', String c s' => String c (take n' s')
  end.

(** [s.endswith(p)]. *)
Definition endswith (s p : string) : bool :=
  bool_decide (drop (String.length s - String.length p) s = p).

(** [s[:-n]] for [n >= 0]; note that [s[:-0]] is [s[:0]], the empty
    string. *)
Definition drop_last (n : nat) (s : string) : string :=
  match n with
  | O => ""
  | S _ => take (String.length s - n) s
  end.

(** The first occurrence of [sep] in [s]: what is before it and what is
    after it. *)
Fixpoint find (sep s : string) : option (string * string) :=
  if String.prefix sep s then Some ("", drop (String.length sep) s)
  else
    match s with
    | "" => None
    | String c s' =>
        match find sep s' with
        | Some (a, b) => Some (String c a, b)
        | None => None
        end
    end.

(** [s.partition(sep)[0]]. *)
Definition partition_head (sep s : string) : string :=
  match find sep s with
  | Some (a, _) => a
  | None => s
  end.

(** [s.split(sep)] for a non-empty [sep]: cut at each occurrence of [sep],
    found from left to right. Every cut consumes at least one character,
    so [n] cuts are enough for a string of [n] characters. *)
Fixpoint split_upto (n : nat) (sep s : string) : list string :=
  match n with
  | O => [s]
  | S n' =>
      match find sep s with
      | None => [s]
      | Some (a, b) => a :: split_upto n' sep b
      end
  end.

(** [s.split(sep)]; Python raises [ValueError] on an empty separator. *)
Definition split (sep s : string) : result (list string) :=
  if nonempty sep then Return (split_upto (String.length s) sep s)
  else Raise (ValueError "empty separator").

(** [sep.join(l)]. *)
Definition join (sep : string) (l : list string) : string :=
  String.concat sep l.

(** [str(n)] for an [int]. *)
Definition str (n : Z) : string := pretty n.

(** Truth value of an optional [dict]: neither [None] nor empty. *)
Definition truthy {K V : Type} `{Countable K}
    (d : option (gmap K V)) : bool :=
  match d with
  | Some m => negb (bool_decide (m = ∅))
  | None => false
  end.

(** Truth value of an optional [list]. *)
Definition truthy_list {A : Type} (l : option (list A)) : bool :=
  match l with
  | Some (_ :: _) => true
  | _ => false
  end.

(** [sorted(l)] for a list of [str]. *)
Definition sorted_str (l : list string) : list string :=
  merge_sort String.le l.

End Py.

Import Py.

(** * The functions of woltka/file.py *)

Module File.

(** A feature key of a profile: a plain feature identifier, or a
    [(stratum, feature)] tuple when the profile is stratified. *)
Inductive fkey : Type :=
| Plain (feature : string)
| Strat (stratum feature : string).

#[global] Instance fkey_eq_dec : EqDecision fkey.
Proof. solve_decision. Defined.

#[global] Instance fkey_countable : Countable fkey.
Proof.
  refine (inj_countable'
    (fun k => match k with
              | Plain f => inl f
              | Strat s f => inr (s, f)
              end)
    (fun x => match x with
              | inl f => Plain f
              | inr (s, f) => Strat s f
              end) _).
  intros []; reflexivity.
Defined.

(** [isinstance(key, tuple)]. *)
Definition is_tuple (key : fkey) : bool :=
  match key with
  | Plain _ => false
  | Strat _ _ => true
  end.

(** [stratum, feature = key if isinstance(key, tuple) else (None, key)]. *)
Definition unpack (key : fkey) : option string * string :=
  match key with
  | Plain feature => (None, feature)
  | Strat stratum feature => (Some stratum, feature)
  end.

(** Python's [<=] between two keys of the same kind: [str] against [str],
    and tuples component by component. Keys of different kinds cannot be
    compared in Python ([sorted_keys] below raises there); the relation
    puts plain keys first only to be total. *)
Definition fkey_le (k1 k2 : fkey) : Prop :=
  match k1, k2 with
  | Plain f1, Plain f2 => String.le f1 f2
  | Strat s1 f1, Strat s2 f2 =>
      (String.le s1 s2 /\ s1 <> s2) \/ (s1 = s2 /\ String.le f1 f2)
  | Plain _, Strat _ _ => True
  | Strat _ _, Plain _ => False
  end.

#[global] Instance fkey_le_dec : RelDecision fkey_le.
Proof. intros [f1|s1 f1] [f2|s2 f2]; simpl; apply _. Defined.

(** A list of keys with both a [str] and a tuple in it. *)
Definition mixed (keys : list fkey) : bool :=
  existsb is_tuple keys && existsb (fun k => negb (is_tuple k)) keys.

(** [sorted(keys)] for a set of feature keys, given as the list of its
    elements: Python raises [TypeError] when it has to compare a [str]
    with a tuple, which happens as soon as both kinds are present. *)
Definition sorted_keys (keys : list fkey) : result (list fkey) :=
  if mixed keys
  then Raise (TypeError "'<' not supported between instances")
  else Return (merge_sort fkey_le keys).

(** A sparse count mapping of one sample, and a profile. *)
Abbreviation counts := (gmap fkey Z).
Abbreviation profile := (gmap string counts).
Abbreviation dict := (gmap string string).

(** Modelled from the spec: [allkeys] of [woltka/util.py], a module that
    [file.py] imports. The spec calls it the "all keys" operation: the
    set of feature keys appearing anywhere in the profile is the union
    across all samples. *)
Definition allkeys (data : profile) : gset fkey :=
  map_fold (fun _ (m : counts) (acc : gset fkey) => dom m ∪ acc) ∅ data.

(** A value stored in a metadata record of [prep_table]: a string, or a
    [dict] that leaked in through [x and y]. *)
Inductive pyval : Type :=
| PyStr (s : string)
| PyDict (d : dict).

(** [ZIPDIC]: the keys only, which is all the functions below look at. *)
Definition ZIPDIC : list string :=
  [".gz"; ".gzip"; ".bz2"; ".bzip2"; ".xz"; ".lz"; ".lzma"].

(** A value yielded by [read_map] next to the key. *)
Inductive mapval : Type :=
| Value (v : string)
| ValueCnt (v : string * Z)
| Values (vs : list string)
| ValuesCnt (vs : list (string * Z)).

(** The target of a read in a read map: one taxon, or a [dict] of taxa
    to counts. *)
Inductive target : Type :=
| Single (taxon : string)
| Weighted (taxa : gmap string Z).

(** [sortkey] of [write_readmap]: [-x[1], x[0]]. *)
Definition sortkey (x : string * Z) : Z * string := (- x.2, x.1).

(** Python's [<=] on the tuples that [sortkey] returns. *)
Definition sortkey_le (x y : string * Z) : Prop :=
  (sortkey x).1 < (sortkey y).1 \/
  ((sortkey x).1 = (sortkey y).1 /\ String.le (sortkey x).2 (sortkey y).2).

#[global] Instance sortkey_le_dec : RelDecision sortkey_le.
Proof. intros x y; unfold sortkey_le; apply _. Defined.

(** [f'Ambiguous files for ID: "{id_}".'] *)
Definition ambiguous_msg (id_ : string) : string :=
  "Ambiguous files for ID: " ++ DQUOTE ++ id_ ++ DQUOTE ++ ".".

(** [f'Alignment file "{file_}" does not exist.'] *)
Definition missing_msg (file_ : string) : string :=
  "Alignment file " ++ DQUOTE ++ file_ ++ DQUOTE ++ " does not exist.".

(** [namedic[taxon] if namedic and taxon in namedic else None]. *)
Definition get_name (namedic : option dict) (taxon : string) : option string :=
  if truthy namedic then default ∅ namedic !! taxon else None.

(** [x or ''] for an optional [str]. *)
Definition or_empty (x : option string) : string :=
  match x with
  | Some s => if nonempty s then s else ""
  | None => ""
  end.

Section file.

(** ** What the module takes from the operating system and from the
    rest of the package *)

(** [os.path.splitext], [os.path.isfile], [os.path.join],
    [os.path.dirname] and [os.listdir]. *)
Variable splitext : string -> string * string.
Variable isfile : string -> bool.
Variable path_join : string -> string -> string.
Variable dirname : string -> string.
Variable listdir : string -> list string.

(** The lines of the text file at a path, decompressed if it has to be. *)
Variable read_lines : string -> list string.

(** [feat_n_cnt] of [woltka/util.py] and [lineage_str] of
    [woltka/tree.py]. *)
Variable feat_n_cnt : string -> string * Z.
Variable lineage_str : string -> dict -> option dict -> string.

(** ** File names *)

(** [openzip(fp)] in its default mode, as the lines it lets one read. *)
Definition openzip (fp : string) : list string := read_lines fp.

Definition file2stem (fname : string) (ext : option string) : result string :=
  match ext with
  | Some ext =>
      if negb (endswith fname ext)
      then Raise (ValueError "Filepath and filename extension do not match.")
      else Return (drop_last (String.length ext) fname)
  | None =>
      let '(stem, ext) := splitext fname in
      let '(stem, ext) :=
        if bool_decide (ext ∈ ZIPDIC) then splitext stem else (stem, ext) in
      Return stem
  end.

(** [os.path.basename]. *)
Variable basename : string -> string.

Definition path2stem (fp : string) (ext : option string) : result string :=
  file2stem (basename fp) ext.

(** ** ID lists *)

(** The body of the loop of [read_ids]. *)
Definition read_ids_body (line : string) (res : list string)
    : flow (list string) (result (option (list string))) :=
  if negb (startswith line "#") then
    let id_ := partition_head TAB (strip line) in
    if nonempty id_ then Next (res ++ [id_])%list else Next res
  else Next res.

(** What follows the loop of [read_ids]. *)
Definition read_ids_finish (res : list string)
    : result (option (list string)) :=
  match res with
  | [] => Raise (ValueError "No ID is read.")
  | _ :: _ =>
      if (size (list_to_set res : gset string) <? List.length res)%nat
      then Raise (ValueError "Duplicate IDs found.")
      else Return (Some res)
  end.

(** [read_ids(fh)]; a bare [return] returns [None]. *)
Definition read_ids (fh : option (list string))
    : result (option (list string)) :=
  match fh with
  | None => Return None
  | Some fh => for_loop read_ids_body read_ids_finish fh []
  end.

(** ** ID-to-file maps *)

(** The body of the loop of [id2file_from_dir]. *)
Definition id2file_from_dir_body (dir_ : string) (ext : option string)
    (ids : option (list string)) (fname : string) (res : dict)
    : flow dict (result dict) :=
  if isfile (path_join dir_ fname) then
    match file2stem fname ext with
    | Raise (ValueError _) => Next res
    | Raise e => Done (Raise e)
    | Return id_ =>
        if truthy_list ids && negb (bool_decide (id_ ∈ default [] ids))
        then Next res
        else if bool_decide (is_Some (res !! id_))
        then Done (Raise (ValueError (ambiguous_msg id_)))
        else Next (<[id_ := fname]> res)
    end
  else Next res.

Definition id2file_from_dir (dir_ : string) (ext : option string)
    (ids : option (list string)) : result dict :=
  for_loop (id2file_from_dir_body dir_ ext ids) Return (listdir dir_) ∅.

(** The body of the loop of [id2file_from_map]; [fdir] is the directory of
    the mapping file. The [try] catches the [ValueError] of unpacking a
    list that does not have two elements. *)
Definition id2file_from_map_body (fdir : string) (line : string)
    (res : list (string * string))
    : flow (list (string * string)) (result (option (list (string * string)))) :=
  let line := rstrip line in
  if negb (nonempty line) || startswith line "#" then Next res
  else
    match split TAB line with
    | Return [id_; file_] =>
        if isfile file_ then Next (res ++ [(id_, file_)])%list
        else
          let fp := path_join fdir file_ in
          if isfile fp then Next (res ++ [(id_, fp)])%list
          else
            match res with
            | _ :: _ => Done (Raise (ValueError (missing_msg file_)))
            | [] => Done (Return None)
            end
    | _ => Done (Return None)
    end.

(** [return res or None]. *)
Definition id2file_from_map_finish (res : list (string * string))
    : result (option (list (string * string))) :=
  match res with
  | _ :: _ => Return (Some res)
  | [] => Return None
  end.

Definition id2file_from_map (fp : string)
    : result (option (list (string * string))) :=
  let fdir := dirname fp in
  for_loop (id2file_from_map_body fdir) id2file_from_map_finish
    (openzip fp) [].

(** ** Mapping records *)

(** One iteration of the loop of [read_map]: nothing ([continue]) or the
    pair to yield. [row[0]] on an empty list would raise [IndexError];
    [str.split] never returns one. *)
Definition read_map_line (sep : string) (multi : option bool) (count : bool)
    (line : string) : result (option (string * mapval)) :=
  bind (split sep (rstrip line)) (fun row =>
  let n := List.length row in
  if (n =? 1)%nat then Return None
  else
    match row with
    | [] => Raise (IndexError "list index out of range")
    | key :: values =>
        match multi with
        | Some true =>
            if count
            then Return (Some (key, ValuesCnt (feat_n_cnt <$> values)))
            else Return (Some (key, Values values))
        | _ =>
            if (2 <? n)%nat && bool_decide (multi = None) then Return None
            else
              match values with
              | [] => Raise (IndexError "list index out of range")
              | value :: _ =>
                  if count
                  then Return (Some (key, ValueCnt (feat_n_cnt value)))
                  else Return (Some (key, Value value))
              end
        end
    end).

(** [read_map(fh, sep, multi, count)], a generator: the pairs it yields,
    in the order it yields them, and the exception that ends it if one is
    raised. *)
Fixpoint read_map (sep : string) (multi : option bool) (count : bool)
    (fh : list string) : list (string * mapval) * option exn :=
  match fh with
  | [] => ([], None)
  | line :: fh' =>
      match read_map_line sep multi count line with
      | Raise e => ([], Some e)
      | Return None => read_map sep multi count fh'
      | Return (Some kv) =>
          let '(out, e) := read_map sep multi count fh' in (kv :: out, e)
      end
  end.

(** ** Read maps *)

(** [sorted(taxa.items(), key=sortkey)]. The keys of a [dict] are distinct,
    so no two items have the same sort key and the order in which the
    [dict] hands them out does not show in the result. *)
Definition sorted_items (taxa : gmap string Z) : list (string * Z) :=
  merge_sort sortkey_le (map_to_list taxa).

(** The row that [write_readmap] builds for one read. *)
Definition write_readmap_row (namedic : option dict) (read : string)
    (taxa : target) : list string :=
  match taxa with
  | Weighted taxa =>
      [read] ++
      ((fun '(taxon, count) =>
          let taxon :=
            match get_name namedic taxon with
            | Some name => name
            | None => taxon
            end in
          (taxon ++ ":" ++ str count)%string) <$> sorted_items taxa)
  | Single taxa =>
      match get_name namedic taxa with
      | Some name => [read; name]
      | None => [read; taxa]
      end
  end%list.

(** [write_readmap(fh, rmap, namedic)], as the lines printed to [fh];
    [rmap] is given as its items, in the order of the [dict]. *)
Definition write_readmap (rmap : list (string * target))
    (namedic : option dict) : list string :=
  (fun '(read, taxa) => join TAB (write_readmap_row namedic read taxa))
    <$> rmap.

(** ** Profile tables *)

(** A list built by a loop whose body can raise. *)
Fixpoint mapM {A B : Type} (f : A -> result B) (l : list A)
    : result (list B) :=
  match l with
  | [] => Return []
  | x :: l' =>
      bind (f x) (fun y => bind (mapM f l') (fun ys => Return (y :: ys)))
  end.

(** Truth value of an optional [str]. *)
Definition truthy_str (x : option string) : bool :=
  match x with
  | Some s => nonempty s
  | None => false
  end.

(** [name if name_as_id and name else feature]. *)
Definition row_head (name_as_id : bool) (name : option string)
    (feature : string) : string :=
  if name_as_id && truthy_str name then default feature name else feature.

(** [f'{stratum}|{head}' if stratum else head]. *)
Definition with_stratum (stratum : option string) (head : string) : string :=
  if truthy_str stratum
  then (default "" stratum ++ "|" ++ head)%string
  else head.

(** [profile[x][key] if key in profile[x] else 0]; subscripting the
    profile with a sample it does not have raises [KeyError]. *)
Definition get_count (data : profile) (sample : string) (key : fkey)
    : result Z :=
  match data !! sample with
  | None => Raise (KeyError sample)
  | Some m =>
      match m !! key with
      | Some n => Return n
      | None => Return 0
      end
  end.

(** [str(data[sample][key]) if key in data[sample] else '0']. *)
Definition get_cell (data : profile) (sample : string) (key : fkey)
    : result string :=
  match data !! sample with
  | None => Raise (KeyError sample)
  | Some m =>
      match m !! key with
      | Some n => Return (str n)
      | None => Return "0"
      end
  end.

(** The samples of [write_table], after its first statement. *)
Definition write_table_samples (data : profile)
    (samples : option (list string)) : list string :=
  if truthy_list samples
  then filter (fun x => is_Some (data !! x)) (default [] samples)
  else sorted_str (elements (dom data)).

(** The header of [write_table]. *)
Definition write_table_header (samples : list string)
    (tree rankdic namedic : option dict) (name_as_id : bool) : list string :=
  (["#FeatureID"] ++ samples
   ++ (if truthy namedic && negb name_as_id then ["Name"] else [])
   ++ (if truthy rankdic then ["Rank"] else [])
   ++ (if truthy tree then ["Lineage"] else []))%list.

(** The row of [write_table] for one key. *)
Definition write_table_row (data : profile) (samples : list string)
    (tree rankdic namedic : option dict) (name_as_id : bool) (key : fkey)
    : result (list string) :=
  let '(stratum, feature) := unpack key in
  let name := get_name namedic feature in
  let head := row_head name_as_id name feature in
  let row := [with_stratum stratum head] in
  bind (mapM (fun sample => get_cell data sample key) samples) (fun cells =>
  let row := (row ++ cells)%list in
  let row :=
    if truthy namedic && negb name_as_id
    then (row ++ [or_empty name])%list else row in
  let row :=
    if truthy rankdic
    then (row ++ [default "" (default ∅ rankdic !! feature)])%list
    else row in
  let row :=
    if truthy tree
    then (row ++ [lineage_str feature (default ∅ tree)
                    (if name_as_id then namedic else None)])%list
    else row in
  Return row).

(** The body of the loop of [write_table]; the state is what has been
    printed so far and [nrow]. *)
Definition write_table_body (data : profile) (samples : list string)
    (tree rankdic namedic : option dict) (name_as_id : bool) (key : fkey)
    (st : list string * nat)
    : flow (list string * nat) (list string * result (nat * nat)) :=
  match write_table_row data samples tree rankdic namedic name_as_id key with
  | Raise e => Done (st.1, Raise e)
  | Return row => Next ((st.1 ++ [join TAB row])%list, S st.2)
  end.

(** [write_table(fh, data, samples, tree, rankdic, namedic, name_as_id)]:
    the lines printed to [fh], and what the call returns or raises. *)
Definition write_table (data : profile) (samples : option (list string))
    (tree rankdic namedic : option dict) (name_as_id : bool)
    : list string * result (nat * nat) :=
  let samples := write_table_samples data samples in
  let header := write_table_header samples tree rankdic namedic name_as_id in
  let out := [join TAB header] in
  match sorted_keys (elements (allkeys data)) with
  | Raise e => (out, Raise e)
  | Return keys =>
      for_loop
        (write_table_body data samples tree rankdic namedic name_as_id)
        (fun st => (st.1, Return (List.length samples, st.2)))
        keys (out, O)
  end.

(** The samples of [prep_table], after its first statement. *)
Definition prep_table_samples (profile : profile)
    (samples : option (list string)) : list string :=
  if truthy_list samples
  then filter (fun x => is_Some (profile !! x)) (default [] samples)
  else sorted_str (elements (dom profile)).

(** [namecol = namedic and not name_as_id or None]: [True] or [None]. *)
Definition prep_table_namecol (namedic : option dict) (name_as_id : bool)
    : bool :=
  truthy namedic && negb name_as_id.

(** [metacols]: [filter(None, ...)] drops what is false. *)
Definition prep_table_metacols (tree rankdic : option dict) (namecol : bool)
    : list string :=
  omap id
    [ if namecol then Some "Name" else None;
      if truthy rankdic then Some "Rank" else None;
      if truthy tree then Some "Lineage" else None ].

(** [d and v] for an optional [dict] [d]: [d] itself when it is false,
    that is [None] or the empty [dict]; [v] otherwise. *)
Definition dict_and (d : option dict) (v : dict -> pyval) : option pyval :=
  match d with
  | None => None
  | Some m => if bool_decide (m = ∅) then Some (PyDict m) else Some (v m)
  end.

(** [any(datum)]. *)
Definition any (datum : list Z) : bool :=
  existsb (fun n => negb (n =? 0)) datum.

(** [metadatum]: [filter(notnone, ...)] drops [None] and nothing else, and
    [dict(zip(...))] pairs what is left with [metacols], whose names are
    distinct; a record is given as its items. *)
Definition prep_table_metadatum (tree rankdic namedic : option dict)
    (name_as_id : bool) (namecol : bool) (metacols : list string)
    (name : option string) (taxon : string) : list (string * pyval) :=
  zip metacols (omap id
    [ if namecol then Some (PyStr (or_empty name)) else None;
      dict_and rankdic (fun d => PyStr (default "" (d !! taxon)));
      dict_and tree (fun t =>
        PyStr (lineage_str taxon t (if name_as_id then namedic else None))) ]).

(** The body of the loop of [prep_table]; the state is [features], [data]
    and [metadata]. *)
Definition prep_table_body (profile : profile) (samples : list string)
    (tree rankdic namedic : option dict) (name_as_id : bool)
    (namecol : bool) (metacols : list string) (key : fkey)
    (st : list string * list (list Z) * list (list (string * pyval)))
    : flow (list string * list (list Z) * list (list (string * pyval)))
        (result (list (list Z) * list string * list string
                 * list (list (string * pyval)))) :=
  let '(features, data, metadata) := st in
  match mapM (fun x => get_count profile x key) samples with
  | Raise e => Done (Raise e)
  | Return datum =>
      if negb (any datum) then Next st
      else
        let data := (data ++ [datum])%list in
        let '(stratum, taxon) := unpack key in
        let name := get_name namedic taxon in
        let feature := row_head name_as_id name taxon in
        let feature := with_stratum stratum feature in
        let features := (features ++ [feature])%list in
        let metadatum :=
          prep_table_metadatum tree rankdic namedic name_as_id namecol
            metacols name taxon in
        Next (features, data, (metadata ++ [metadatum])%list)
  end.

(** [prep_table(profile, samples, tree, rankdic, namedic, name_as_id)]:
    [data, features, samples, metadata]. *)
Definition prep_table (profile : profile) (samples : option (list string))
    (tree rankdic namedic : option dict) (name_as_id : bool)
    : result (list (list Z) * list string * list string
              * list (list (string * pyval))) :=
  let samples := prep_table_samples profile samples in
  let namecol := prep_table_namecol namedic name_as_id in
  let metacols := prep_table_metacols tree rankdic namecol in
  bind (sorted_keys (elements (allkeys profile))) (fun keys =>
  for_loop
    (prep_table_body profile samples tree rankdic namedic name_as_id
       namecol metacols)
    (fun '(features, data, metadata) =>
       Return (data, features, samples, metadata))
    keys ([], [], [])).

End file.

End File.

(** * The POSIX flavour of os.path

    The functions of [os.path] are arguments of the embedding. The
    definitions below follow [posixpath] and serve to run the embedding on
    examples. *)

Module Posix.

(** [s.rfind(c)] for a character [c], [None] standing for [-1]. *)
Fixpoint rfind (c : ascii) (s : string) : option nat :=
  match s with
  | "" => None
  | String a s' =>
      match rfind c s' with
      | Some i => Some (S i)
      | None => if Ascii.eqb a c then Some O else None
      end
  end.

(** A character other than a dot occurs in [s]. *)
Fixpoint has_non_dot (s : string) : bool :=
  match s with
  | "" => false
  | String a s' => negb (Ascii.eqb a ".") || has_non_dot s'
  end.

(** [s.rstrip('/')]. *)
Fixpoint rstrip_slash (s : string) : string :=
  match s with
  | "" => ""
  | String c s' =>
      match rstrip_slash s' with
      | "" => if Ascii.eqb c "/" then "" else String c ""
      | r => String c r
      end
  end.

(** [posixpath.splitext]: the extension starts at the last dot of the
    last component, unless only dots come before it there. *)
Definition splitext (p : string) : string * string :=
  match rfind "." p with
  | Some d =>
      let f := match rfind "/" p with Some i => S i | None => O end in
      if (f <=? d)%nat && has_non_dot (take (d - f) (drop f p))
      then (take d p, drop d p)
      else (p, "")
  | None => (p, "")
  end.

(** [posixpath.join] of two components. *)
Definition join (a b : string) : string :=
  if startswith b "/" then b
  else if negb (nonempty a) || endswith a "/" then (a ++ b)%string
  else (a ++ "/" ++ b)%string.

(** [posixpath.dirname]. *)
Definition dirname (p : string) : string :=
  let i := match rfind "/" p with Some i => S i | None => O end in
  let head := take i p in
  if nonempty head && nonempty (rstrip_slash head)
  then rstrip_slash head
  else head.

End Posix.

(** * Notions used to state the properties *)

Section notions.

Variable splitext : string -> string * string.
Variable isfile : string -> bool.
Variable path_join : string -> string -> string.

(** A line that the loop of [id2file_from_map] skips: empty once its
    trailing white space is removed, or a comment. *)
Definition skipped (line : string) : bool :=
  negb (nonempty (rstrip line)) || startswith (rstrip line) "#".

(** A line of an ID list that contributes no ID: a comment, or a line
    with nothing before its first tab once white space is stripped from
    both ends. *)
Definition no_id (line : string) : bool :=
  startswith line "#" || negb (nonempty (partition_head TAB (strip line))).

(** The sample ID under which [id2file_from_dir] records a directory
    entry, if it records it at all: the entry is a regular file, its stem
    can be taken, and the stem is in the list of IDs when there is one. *)
Definition candidate (dir_ : string) (ext : option string)
    (ids : option (list string)) (fname : string) : option string :=
  if isfile (path_join dir_ fname) then
    match File.file2stem splitext fname ext with
    | Return id_ =>
        if truthy_list ids && negb (bool_decide (id_ ∈ default [] ids))
        then None
        else Some id_
    | Raise _ => None
    end
  else None.

(** The entries of a listing that [id2file_from_dir] records, each with
    its sample ID, in the order of the listing. *)
Definition candidates (dir_ : string) (ext : option string)
    (ids : option (list string)) (names : list string)
    : list (string * string) :=
  omap (fun fname =>
          match candidate dir_ ext ids fname with
          | Some id_ => Some (id_, fname)
          | None => None
          end) names.

End notions.

Section record_notions.

Variable feat_n_cnt : string -> string * Z.

(** What [read_map] yields for one value, without or with a count. *)
Definition one_value (count : bool) (v : string) : File.mapval :=
  if count then File.ValueCnt (feat_n_cnt v) else File.Value v.

(** What [read_map] yields for all values, without or with counts. *)
Definition all_values (count : bool) (vs : list string) : File.mapval :=
  if count then File.ValuesCnt (feat_n_cnt <$> vs) else File.Values vs.

End record_notions.

(** The pairs that one line makes [read_map] yield: one or none. *)
Definition yielded (r : result (option (string * File.mapval)))
    : list (string * File.mapval) :=
  match r with
  | Return (Some kv) => [kv]
  | _ => []
  end.

Section table_notions.

Variable lineage_str : string -> File.dict -> option File.dict -> string.
Variable data : File.profile.
Variable samples : list string.
Variables tree rankdic namedic : option File.dict.
Variable name_as_id : bool.

(** The count of a feature key in a sample: 0 when the sample does not
    have the key (or when the profile does not have the sample). *)
Definition count_of (sample : string) (key : File.fkey) : Z :=
  default 0 (data !! sample ≫= (fun m : File.counts => m !! key)).

(** The counts of a feature key in the samples, in their order. *)
Definition datum_of (key : File.fkey) : list Z :=
  (fun sample => count_of sample key) <$> samples.

(** The label of the row of a feature key. *)
Definition label_of (key : File.fkey) : string :=
  File.with_stratum (File.unpack key).1
    (File.row_head name_as_id (File.get_name namedic (File.unpack key).2)
       (File.unpack key).2).

(** The values of the metadata columns Name, Rank and Lineage for a
    feature key. *)
Definition name_value (key : File.fkey) : string :=
  File.or_empty (File.get_name namedic (File.unpack key).2).

Definition rank_value (key : File.fkey) : string :=
  default "" (default ∅ rankdic !! (File.unpack key).2).

Definition lineage_value (key : File.fkey) : string :=
  lineage_str (File.unpack key).2 (default ∅ tree)
    (if name_as_id then namedic else None).

(** The metadata columns that are active, with their values for a feature
    key, in the order Name, Rank, Lineage. *)
Definition meta_of (key : File.fkey) : list (string * string) :=
  ((if truthy namedic && negb name_as_id
    then [("Name", name_value key)] else [])
   ++ (if truthy rankdic then [("Rank", rank_value key)] else [])
   ++ (if truthy tree then [("Lineage", lineage_value key)] else []))%list.

(** The cells of the row of the text table for a feature key. *)
Definition row_of (key : File.fkey) : list string :=
  ([label_of key] ++ (str <$> datum_of key) ++ (meta_of key).*2)%list.

(** The feature keys that have a count other than 0 in some sample. *)
Definition retained (keys : list File.fkey) : list File.fkey :=
  filter (fun key => File.any (datum_of key) = true) keys.

End table_notions.

(** Strict order on strings. *)
Definition str_lt (a b : string) : Prop := String.le a b /\ a <> b.

(** The order in which the read-map writer puts two entries of a read:
    the higher count first and, for equal counts, the smaller feature
    identifier first. *)
Definition readmap_before (x y : string * Z) : Prop :=
  y.2 < x.2 \/ (x.2 = y.2 /\ str_lt x.1 y.1).

(** * Inputs of the examples *)

Module Ex.

(** A file system with two alignment files. *)
Definition isfile (p : string) : bool :=
  bool_decide (p ∈ ["/d/x.txt"; "/m/y.txt"]).

(** A mapping file whose second entry is found next to the mapping file,
    and whose third line has one column. *)
Definition map_one_column : list string :=
  [ "# sample" ++ TAB ++ "file" ++ NL;
    "a" ++ TAB ++ "/d/x.txt" ++ NL;
    "b" ++ TAB ++ "y.txt" ++ NL;
    "c" ++ NL ].

(** A mapping file whose third entry does not exist. *)
Definition map_missing_third : list string :=
  [ "a" ++ TAB ++ "/d/x.txt" ++ NL;
    NL;
    "b" ++ TAB ++ "y.txt" ++ NL;
    "c" ++ TAB ++ "z.txt" ++ NL ].

(** A mapping file whose first entry does not exist. *)
Definition map_missing_first : list string :=
  [ "# sample" ++ TAB ++ "file" ++ NL;
    "c" ++ TAB ++ "z.txt" ++ NL;
    "a" ++ TAB ++ "/d/x.txt" ++ NL ].

(** An ID list with a comment and a blank line only. *)
Definition ids_blank : list string := [ "#SampleID" ++ NL; "  " ++ TAB ++ NL ].

(** Two listings of one directory in which two IDs are ambiguous. *)
Definition listing_ab : list string := ["a.txt"; "a.csv"; "b.txt"; "b.csv"].
Definition listing_ba : list string := ["b.txt"; "b.csv"; "a.txt"; "a.csv"].

(** Two listings of one directory without ambiguity. *)
Definition listing_12 : list string := ["s1.tsv.gz"; "s2.tsv"; "notes"].
Definition listing_21 : list string := ["notes"; "s2.tsv"; "s1.tsv.gz"].

(** [feat_n_cnt] on values that carry no count. *)
Definition no_count (v : string) : string * Z := (v, 1).

(** A record of three columns whose second column is empty. *)
Definition record_empty_second : string := "k" ++ TAB ++ "" ++ TAB ++ "w" ++ NL.

(** A record of three columns whose second column ends with a space. *)
Definition record_space_second : string := "k" ++ TAB ++ "v " ++ TAB ++ "w" ++ NL.

(** A record of three columns. *)
Definition record_three : string := "k" ++ TAB ++ "v" ++ TAB ++ "w" ++ NL.

(** A profile of two samples that share no feature. *)
Definition profile_disjoint : File.profile :=
  {[ "S1" := {[ File.Plain "f1" := 3 ]};
     "S2" := {[ File.Plain "f2" := 5 ]} ]}.

(** A profile with a count of 0 that is stored. *)
Definition profile_stored_zero : File.profile :=
  {[ "S1" := {[ File.Plain "f1" := 3; File.Plain "f2" := 0 ]} ]}.

(** The profile of the table-building example. *)
Definition profile_two : File.profile :=
  {[ "S1" := {[ File.Plain "f1" := 3; File.Plain "f2" := 0 ]};
     "S2" := {[ File.Plain "f1" := 0; File.Plain "f2" := 5 ]} ]}.

(** A stratified profile, a profile with keys of both kinds, and
    dictionaries for one feature. *)
Definition profile_strata : File.profile :=
  {[ "S1" := {[ File.Strat "B" "f0" := 4; File.Strat "A" "f1" := 1 ]};
     "S2" := {[ File.Strat "A" "f1" := 2 ]} ]}.
Definition profile_mixed : File.profile :=
  {[ "S1" := {[ File.Plain "f1" := 3; File.Strat "A" "f1" := 1 ]} ]}.
Definition ranks_one : File.dict := {[ "f1" := "genus" ]}.
Definition names_one : File.dict := {[ "f1" := "Feature one" ]}.

(** A profile of one sample and one feature, and a tree with that
    feature. *)
Definition profile_one : File.profile :=
  {[ "S1" := {[ File.Plain "f1" := 3 ]} ]}.
Definition tree_one : File.dict := {[ "f1" := "root" ]}.

(** A lineage renderer: the parent of the feature in the tree, then the
    feature. *)
Definition lineage (taxon : string) (tree : File.dict)
    (namedic : option File.dict) : string :=
  (default "" (tree !! taxon) ++ ";" ++ taxon)%string.

End Ex.


(** * Further notions *)

Module More.

(** [posixpath.basename]: what follows the last slash. *)
Definition basename (p : string) : string :=
  drop (match Posix.rfind "/" p with Some i => S i | None => O end) p.

(** The ID that a line of an ID list contributes, if any. *)
Definition id_of_line (line : string) : option string :=
  if no_id line then None else Some (partition_head TAB (strip line)).

(** The IDs that the lines of an ID list contribute, in their order. *)
Definition ids_of (fh : list string) : list string := omap id_of_line fh.

Section resolve.

Variable isfile : string -> bool.
Variable path_join : string -> string -> string.
Variable fdir : string.

(** The pair that a line of a mapping file stands for: its ID and its
    path as given when a file is there, else its path next to the mapping
    file when a file is there. Nothing for a line that is skipped, that
    does not have two columns, or whose file is in neither place. *)
Definition resolve (line : string) : option (string * string) :=
  if skipped line then None
  else
    match split TAB (rstrip line) with
    | Return [id_; file_] =>
        if isfile file_ then Some (id_, file_)
        else if isfile (path_join fdir file_)
        then Some (id_, path_join fdir file_)
        else None
    | _ => None
    end.

End resolve.

(** [res or None] for a list. *)
Definition or_none {A : Type} (res : list A) : option (list A) :=
  match res with
  | [] => None
  | _ :: _ => Some res
  end.

(** A mapping file whose lines are all in order. *)
Definition map_in_order : list string :=
  [ "# sample" ++ TAB ++ "file" ++ NL;
    "a" ++ TAB ++ "/d/x.txt" ++ NL;
    NL;
    "b" ++ TAB ++ "y.txt" ++ NL ].

(** A string without any occurrence of [sep]. *)
Definition sep_free (sep s : string) : Prop := find sep s = None.

(** The row of a read can be read again: it has an entry after the read,
    no cell has a tab in it, and the line does not end with white space. *)
Definition rereadable (namedic : option File.dict)
    (x : string * File.target) : Prop :=
  (2 <= List.length (File.write_readmap_row namedic x.1 x.2))%nat
  /\ Forall (sep_free TAB) (File.write_readmap_row namedic x.1 x.2)
  /\ rstrip (join TAB (File.write_readmap_row namedic x.1 x.2))
     = join TAB (File.write_readmap_row namedic x.1 x.2).

(** The taxa that the target of a read mentions. *)
Definition taxa_of (t : File.target) : list string :=
  match t with
  | File.Single taxon => [taxon]
  | File.Weighted taxa => (map_to_list taxa).*1
  end.

(** The feature keys of a profile are all plain or all stratified. *)
Definition uniform (data : File.profile) : Prop :=
  File.mixed (elements (File.allkeys data)) = false.

(** The feature keys of a profile, in ascending order. *)
Definition keys_of (data : File.profile) : list File.fkey :=
  merge_sort File.fkey_le (elements (File.allkeys data)).

(** What [read_map] with counts makes of a value that it would yield
    without counts. *)
Definition with_counts (feat_n_cnt : string -> string * Z)
    (v : File.mapval) : File.mapval :=
  match v with
  | File.Value v => File.ValueCnt (feat_n_cnt v)
  | File.Values vs => File.ValuesCnt (feat_n_cnt <$> vs)
  | File.ValueCnt _ | File.ValuesCnt _ => v
  end.

(** A string without the character [c]. *)
Definition char_free (c : ascii) (s : string) : Prop := Posix.rfind c s = None.

(** A read map with a read of several taxa and a read of one taxon. *)
Definition rmap_two : list (string * File.target) :=
  [ ("r1", File.Weighted {[ "a" := 2; "b" := 5; "c" := 5 ]});
    ("r2", File.Single "b") ].

End More.

(** * Properties *)

Import File.

(** ** Running the embedding on small inputs *)

Example rstrip_ex : rstrip ("a" ++ TAB ++ "b " ++ NL) = "a" ++ TAB ++ "b".
Proof. reflexivity. Qed.

Example split_ex :
  split TAB ("a" ++ TAB ++ TAB ++ "b") = Return ["a"; ""; "b"].
Proof. reflexivity. Qed.

Example split_long_sep_ex : split "ab" "ababxab" = Return [""; ""; "x"; ""].
Proof. reflexivity. Qed.

Example endswith_ex :
  drop_last 4 "s1.txt" = "s1" /\ endswith "s1.txt" ".txt" = true
  /\ endswith "txt" "a.txt" = false.
Proof. repeat split; reflexivity. Qed.

Example str_ex : str 0 = "0" /\ str 15 = "15" /\ str (-3) = "-3".
Proof. repeat split; reflexivity. Qed.

Example posix_splitext_ex :
  Posix.splitext "sample.tsv.gz" = ("sample.tsv", ".gz")
  /\ Posix.splitext ".hidden" = (".hidden", "")
  /\ Posix.splitext "a.d/b" = ("a.d/b", "").
Proof. repeat split; reflexivity. Qed.

Example posix_join_dirname_ex :
  Posix.join "/m" "y.txt" = "/m/y.txt" /\ Posix.join "/m" "/y.txt" = "/y.txt"
  /\ Posix.dirname "/m/map.txt" = "/m" /\ Posix.dirname "map.txt" = ""
  /\ Posix.dirname "/map.txt" = "/".
Proof. repeat split; reflexivity. Qed.

Example file2stem_ex :
  file2stem Posix.splitext "sample.tsv.gz" None = Return "sample"
  /\ file2stem Posix.splitext "sample.tsv" (Some ".tsv") = Return "sample"
  /\ file2stem Posix.splitext "sample.tsv" (Some "") = Return "".
Proof. repeat split; reflexivity. Qed.

(** The table of the profile [{S1: {f1: 3, f2: 0}, S2: {f1: 0, f2: 5}}],
    in its two shapes. *)
Example table_ex :
  write_table Ex.lineage Ex.profile_two None None None None false
  = ([ "#FeatureID" ++ TAB ++ "S1" ++ TAB ++ "S2";
       "f1" ++ TAB ++ "3" ++ TAB ++ "0";
       "f2" ++ TAB ++ "0" ++ TAB ++ "5" ],
     Return (2%nat, 2%nat))
  /\ prep_table Ex.lineage Ex.profile_two None None None None false
     = Return ([[3; 0]; [0; 5]], ["f1"; "f2"], ["S1"; "S2"], [[]; []]).
Proof. split; reflexivity. Qed.

(** A stratified profile with the three metadata columns, and with names
    as row headers. *)
Example table_stratified_ex :
  write_table Ex.lineage Ex.profile_strata (Some ["S2"; "S0"; "S1"])
    (Some Ex.tree_one) (Some Ex.ranks_one) (Some Ex.names_one) false
  = ([ "#FeatureID" ++ TAB ++ "S2" ++ TAB ++ "S1" ++ TAB ++ "Name" ++ TAB
       ++ "Rank" ++ TAB ++ "Lineage";
       "A|f1" ++ TAB ++ "2" ++ TAB ++ "1" ++ TAB ++ "Feature one" ++ TAB
       ++ "genus" ++ TAB ++ "root;f1";
       "B|f0" ++ TAB ++ "0" ++ TAB ++ "4" ++ TAB ++ "" ++ TAB ++ "" ++ TAB
       ++ ";f0" ],
     Return (2%nat, 2%nat))
  /\ prep_table Ex.lineage Ex.profile_strata (Some ["S2"; "S0"; "S1"])
       (Some Ex.tree_one) (Some Ex.ranks_one) (Some Ex.names_one) true
     = Return ([[2; 1]; [0; 4]], ["A|Feature one"; "B|f0"], ["S2"; "S1"],
               [ [("Rank", PyStr "genus"); ("Lineage", PyStr "root;f1")];
                 [("Rank", PyStr ""); ("Lineage", PyStr ";f0")] ]).
Proof. split; reflexivity. Qed.

(** Plain and stratified keys in one profile cannot be sorted. *)
Example table_mixed_ex :
  write_table Ex.lineage Ex.profile_mixed None None None None false
  = (["#FeatureID" ++ TAB ++ "S1"],
     Raise (TypeError "'<' not supported between instances")).
Proof. reflexivity. Qed.

Example read_map_ex :
  read_map Ex.no_count TAB None false
    [ "r1" ++ TAB ++ "a" ++ NL; "r2" ++ NL; "r3" ++ TAB ++ "a" ++ TAB ++ "b";
      "r1" ++ TAB ++ "a" ++ NL ]
  = ([("r1", Value "a"); ("r1", Value "a")], None)
  /\ read_map Ex.no_count TAB (Some true) true
       [ "r3" ++ TAB ++ "a" ++ TAB ++ "b" ]
     = ([("r3", ValuesCnt [("a", 1); ("b", 1)])], None)
  /\ read_map Ex.no_count "" None false [ "r1" ]
     = ([], Some (ValueError "empty separator")).
Proof. repeat split; reflexivity. Qed.

Example write_readmap_ex :
  write_readmap
    [ ("r1", Weighted {[ "a" := 2; "b" := 5; "c" := 5 ]}); ("r2", Single "b") ]
    (Some {[ "b" := "Zeta" ]})
  = [ "r1" ++ TAB ++ "Zeta:5" ++ TAB ++ "c:5" ++ TAB ++ "a:2";
      "r2" ++ TAB ++ "Zeta" ].
Proof. reflexivity. Qed.

(** ** Loops *)

Section loops.
Context {L S R : Type}.
Variable body : L -> S -> flow S R.
Variable finish : S -> R.

Lemma iterate_app (l1 l2 : list L) (s s1 : S) :
  iterate body l1 s = Next s1 ->
  iterate body (l1 ++ l2) s = iterate body l2 s1.
Proof.
  revert s; induction l1 as [|x l1 IH]; intros s; simpl.
  - intros [= ->]; reflexivity.
  - destruct (body x s) as [s'|r]; [apply IH | discriminate].
Qed.

Lemma for_loop_app (l1 l2 : list L) (s s1 : S) :
  iterate body l1 s = Next s1 ->
  for_loop body finish (l1 ++ l2) s = for_loop body finish l2 s1.
Proof.
  revert s; induction l1 as [|x l1 IH]; intros s; simpl.
  - intros [= ->]; reflexivity.
  - destruct (body x s) as [s'|r]; [apply IH | discriminate].
Qed.

Lemma for_loop_iterate (l : list L) (s : S) :
  for_loop body finish l s =
  match iterate body l s with
  | Next s' => finish s'
  | Done r => r
  end.
Proof.
  revert s; induction l as [|x l IH]; intros s; simpl; [reflexivity|].
  destruct (body x s); [apply IH | reflexivity].
Qed.

End loops.

(** ** ID lists *)

Lemma read_ids_body_next (line : string) (res : list string) :
  exists res', read_ids_body line res = Next res'
    /\ (no_id line = true -> res' = res).
Proof.
  unfold read_ids_body, no_id.
  destruct (startswith line "#"); simpl; [eauto|].
  destruct (nonempty (partition_head TAB (strip line))); simpl; eauto.
  eexists; split; [reflexivity | discriminate].
Qed.

Lemma read_ids_no_id (fh : list string) (res : list string) :
  Forall (fun line => no_id line = true) fh ->
  iterate read_ids_body fh res = Next res.
Proof.
  induction 1 as [|line fh Hline _ IH]; simpl; [reflexivity|].
  destruct (read_ids_body_next line res) as (res' & -> & Hres).
  rewrite (Hres Hline); exact IH.
Qed.

Lemma read_ids_iterate_next (fh : list string) (res : list string) :
  exists res', iterate read_ids_body fh res = Next res'.
Proof.
  revert res; induction fh as [|line fh IH]; intros res; simpl; [eauto|].
  destruct (read_ids_body_next line res) as (res' & -> & _); apply IH.
Qed.

(** C10. [read_ids] returns [None] for an absent input without raising,
    whereas for every present input from which the loop collects no ID
    (the list [res] is empty when the loop ends) it raises
    [ValueError('No ID is read.')]; a present input never makes it return
    [None]. *)
Theorem read_ids_absent_vs_empty :
  read_ids None = Return None
  /\ (forall fh : list string,
        iterate read_ids_body fh [] = Next [] ->
        read_ids (Some fh) = Raise (ValueError "No ID is read."))
  /\ (forall fh : list string, read_ids (Some fh) <> Return None).
Proof.
  split; [reflexivity|]. split.
  - intros fh Hfh. unfold read_ids.
    rewrite for_loop_iterate, Hfh. reflexivity.
  - intros fh. unfold read_ids. rewrite for_loop_iterate.
    destruct (read_ids_iterate_next fh []) as [res ->].
    unfold read_ids_finish. destruct res as [|x res]; [discriminate|].
    destruct (_ <? _)%nat; discriminate.
Qed.

Lemma read_ids_absent_vs_empty_witness :
  read_ids (Some Ex.ids_blank) = Raise (ValueError "No ID is read.").
Proof.
  apply (proj1 (proj2 read_ids_absent_vs_empty) Ex.ids_blank).
  reflexivity.
Defined.

(** Every line of a present input being a comment or blank is one way of
    collecting no ID. *)
Lemma read_ids_only_comments (fh : list string) :
  Forall (fun line => no_id line = true) fh ->
  read_ids (Some fh) = Raise (ValueError "No ID is read.").
Proof.
  intros Hfh. unfold read_ids.
  rewrite for_loop_iterate, (read_ids_no_id fh [] Hfh). reflexivity.
Qed.

(** ** ID-to-file maps read from a mapping file *)

Section map_file.

Variable isfile : string -> bool.
Variable path_join : string -> string -> string.
Variable dirname : string -> string.
Variable read_lines : string -> list string.

Local Abbreviation body := (id2file_from_map_body isfile path_join).

Lemma map_body_skipped (fdir line : string) (res : list (string * string)) :
  skipped line = true -> body fdir line res = Next res.
Proof.
  unfold skipped, id2file_from_map_body. intros ->. reflexivity.
Qed.

Lemma map_body_next (fdir line : string)
    (res res' : list (string * string)) :
  skipped line = false ->
  body fdir line res = Next res' ->
  exists p, res' = (res ++ [p])%list.
Proof.
  unfold skipped, id2file_from_map_body. intros ->.
  destruct (split TAB (rstrip line)) as [[|id_ [|file_ [|? ?]]]|e];
    try discriminate.
  destruct (isfile file_); [intros [= <-]; eauto|].
  destruct (isfile (path_join fdir file_)); [intros [= <-]; eauto|].
  destruct res; discriminate.
Qed.

(** The list [res] is empty exactly as long as every line read so far was
    skipped. *)
Lemma map_iterate_res (fdir : string) (pre : list string)
    (s res : list (string * string)) :
  iterate (body fdir) pre s = Next res ->
  exists added, res = (s ++ added)%list
    /\ (Forall (fun l => skipped l = true) pre -> added = [])
    /\ (Exists (fun l => skipped l = false) pre -> added <> []).
Proof.
  revert s; induction pre as [|line pre IH]; intros s; simpl.
  - intros [= <-]. exists []. rewrite app_nil_r.
    split; [reflexivity|]. split; [reflexivity|]. intros H; inversion H.
  - destruct (body fdir line s) as [s'|r] eqn:Hbody; [|discriminate].
    intros Hit. destruct (IH _ Hit) as (added & -> & Hall & Hex).
    destruct (skipped line) eqn:Hsk.
    + rewrite map_body_skipped in Hbody by assumption.
      injection Hbody as <-. exists added. split; [reflexivity|]. split.
      * intros H; inversion H; subst; auto.
      * intros H; inversion H; subst; [congruence | auto].
    + destruct (map_body_next _ _ _ _ Hsk Hbody) as [p ->].
      exists (p :: added). rewrite <- app_assoc. split; [reflexivity|].
      split; [|discriminate].
      intros H; inversion H; subst; congruence.
Qed.

Lemma map_body_malformed (fdir line : string)
    (res : list (string * string)) :
  skipped line = false ->
  (forall id_ file_, split TAB (rstrip line) <> Return [id_; file_]) ->
  body fdir line res = Done (Return None).
Proof.
  unfold skipped, id2file_from_map_body. intros -> Hcols.
  destruct (split TAB (rstrip line)) as [[|id_ [|file_ [|? ?]]]|e];
    try reflexivity.
  destruct (Hcols id_ file_); reflexivity.
Qed.

(** C2, as the code has it. A line that is not skipped and does not split
    into exactly two tab-separated columns makes [id2file_from_map] return
    [None] wherever the loop meets it: as the first line that is not
    skipped, or after any number of entries have been resolved. No error
    is raised for the shape of a line. *)
Theorem id2file_from_map_malformed_line
    (fp : string) (pre post : list string) (line : string)
    (res : list (string * string)) :
  read_lines fp = (pre ++ line :: post)%list ->
  iterate (id2file_from_map_body isfile path_join (dirname fp)) pre []
    = Next res ->
  skipped line = false ->
  (forall id_ file_, split TAB (rstrip line) <> Return [id_; file_]) ->
  id2file_from_map isfile path_join dirname read_lines fp = Return None.
Proof.
  intros Hlines Hpre Hsk Hcols.
  unfold id2file_from_map, openzip. rewrite Hlines.
  rewrite (for_loop_app _ _ _ _ _ _ Hpre). simpl.
  rewrite map_body_malformed by assumption. reflexivity.
Qed.

(** C4. An entry whose line is reached by the loop is resolved by trying
    its path field as given and then joined to the directory of the mapping
    file. When neither exists, [id2file_from_map] returns [None] if the
    line is the very first one that is not skipped, and raises
    [ValueError] naming the path field if an earlier line was not skipped,
    that is after a pair has been resolved. *)
Theorem id2file_from_map_path_resolution
    (fp : string) (pre post : list string) (line id_ file_ : string)
    (res : list (string * string)) :
  read_lines fp = (pre ++ line :: post)%list ->
  iterate (id2file_from_map_body isfile path_join (dirname fp)) pre []
    = Next res ->
  skipped line = false ->
  split TAB (rstrip line) = Return [id_; file_] ->
  (isfile file_ = true ->
   iterate (id2file_from_map_body isfile path_join (dirname fp))
     (pre ++ [line]) [] = Next (res ++ [(id_, file_)])%list)
  /\ (isfile file_ = false ->
      isfile (path_join (dirname fp) file_) = true ->
      iterate (id2file_from_map_body isfile path_join (dirname fp))
        (pre ++ [line]) []
      = Next (res ++ [(id_, path_join (dirname fp) file_)])%list)
  /\ (isfile file_ = false ->
      isfile (path_join (dirname fp) file_) = false ->
      (Forall (fun l => skipped l = true) pre ->
       id2file_from_map isfile path_join dirname read_lines fp
       = Return None)
      /\ (Exists (fun l => skipped l = false) pre ->
          res <> []
          /\ id2file_from_map isfile path_join dirname read_lines fp
             = Raise (ValueError (missing_msg file_)))).
Proof.
  intros Hlines Hpre Hsk Hcols.
  assert (Hbody : forall s,
    id2file_from_map_body isfile path_join (dirname fp) line s =
    if isfile file_ then Next (s ++ [(id_, file_)])%list
    else if isfile (path_join (dirname fp) file_)
    then Next (s ++ [(id_, path_join (dirname fp) file_)])%list
    else match s with
         | _ :: _ => Done (Raise (ValueError (missing_msg file_)))
         | [] => Done (Return None)
         end).
  { intros s. unfold id2file_from_map_body. unfold skipped in Hsk.
    rewrite Hsk, Hcols. reflexivity. }
  destruct (map_iterate_res _ _ _ _ Hpre) as (added & Hres & Hall & Hex).
  simpl in Hres. subst added.
  split; [|split].
  - intros Hf. rewrite (iterate_app _ _ _ _ _ Hpre). simpl.
    rewrite Hbody, Hf. reflexivity.
  - intros Hf Hf'. rewrite (iterate_app _ _ _ _ _ Hpre). simpl.
    rewrite Hbody, Hf, Hf'. reflexivity.
  - intros Hf Hf'. split.
    + intros Hskip. unfold id2file_from_map, openzip. rewrite Hlines.
      rewrite (for_loop_app _ _ _ _ _ _ Hpre). simpl.
      rewrite Hbody, Hf, Hf', (Hall Hskip). reflexivity.
    + intros Hsome. split; [exact (Hex Hsome)|].
      unfold id2file_from_map, openzip. rewrite Hlines.
      rewrite (for_loop_app _ _ _ _ _ _ Hpre). simpl.
      rewrite Hbody, Hf, Hf'.
      destruct res; [destruct (Hex Hsome); reflexivity | reflexivity].
Qed.

End map_file.

(** A mapping file with a one-column line after two resolved entries:
    [None] is returned and nothing is raised. *)
Lemma id2file_from_map_malformed_line_witness :
  id2file_from_map Ex.isfile Posix.join Posix.dirname
    (fun _ => Ex.map_one_column) "/m/map.txt" = Return None.
Proof.
  apply (id2file_from_map_malformed_line Ex.isfile Posix.join Posix.dirname
           (fun _ => Ex.map_one_column) "/m/map.txt"
           (firstn 3 Ex.map_one_column) [] ("c" ++ NL)
           [("a", "/d/x.txt"); ("b", "/m/y.txt")]).
  - reflexivity.
  - reflexivity.
  - reflexivity.
  - intros id_ file_. discriminate.
Defined.

(** C2, as the claim has it, fails: a one-column line after two resolved
    entries does not raise. *)
Lemma id2file_from_map_malformed_later_no_error :
  iterate (id2file_from_map_body Ex.isfile Posix.join "/m")
    (firstn 3 Ex.map_one_column) []
  = Next [("a", "/d/x.txt"); ("b", "/m/y.txt")]
  /\ split TAB (rstrip ("c" ++ NL)) = Return ["c"]
  /\ ~ (exists e,
         id2file_from_map Ex.isfile Posix.join Posix.dirname
           (fun _ => Ex.map_one_column) "/m/map.txt" = Raise e).
Proof.
  split; [reflexivity|]. split; [reflexivity|].
  intros [e He]. vm_compute in He. discriminate.
Qed.

(** A missing path on the third entry raises; on the first entry it makes
    the function return [None]. *)
Lemma id2file_from_map_path_resolution_witness :
  id2file_from_map Ex.isfile Posix.join Posix.dirname
    (fun _ => Ex.map_missing_third) "/m/map.txt"
  = Raise (ValueError (missing_msg "z.txt"))
  /\ id2file_from_map Ex.isfile Posix.join Posix.dirname
       (fun _ => Ex.map_missing_first) "/m/map.txt"
     = Return None.
Proof.
  split.
  - refine (proj2 (proj2 (proj2 (proj2
      (id2file_from_map_path_resolution Ex.isfile Posix.join Posix.dirname
         (fun _ => Ex.map_missing_third) "/m/map.txt"
         (firstn 3 Ex.map_missing_third) [] ("c" ++ TAB ++ "z.txt" ++ NL)
         "c" "z.txt" [("a", "/d/x.txt"); ("b", "/m/y.txt")]
         eq_refl eq_refl eq_refl eq_refl)) eq_refl eq_refl) _)).
    apply Exists_cons_hd. reflexivity.
  - refine (proj1 (proj2 (proj2
      (id2file_from_map_path_resolution Ex.isfile Posix.join Posix.dirname
         (fun _ => Ex.map_missing_first) "/m/map.txt"
         (firstn 1 Ex.map_missing_first)
         (skipn 2 Ex.map_missing_first) ("c" ++ TAB ++ "z.txt" ++ NL)
         "c" "z.txt" []
         eq_refl eq_refl eq_refl eq_refl)) eq_refl eq_refl) _).
    repeat constructor.
Defined.

(** ** ID-to-file maps read from a directory *)

Section dir_scan.

Variable splitext : string -> string * string.
Variable isfile : string -> bool.
Variable path_join : string -> string -> string.
Variable dir_ : string.
Variable ext : option string.
Variable ids : option (list string).

Local Abbreviation body :=
  (id2file_from_dir_body splitext isfile path_join dir_ ext ids).
Local Abbreviation cand := (candidate splitext isfile path_join dir_ ext ids).
Local Abbreviation cands :=
  (candidates splitext isfile path_join dir_ ext ids).

(** [file2stem] raises nothing but [ValueError]. *)
Lemma file2stem_raises (fname : string) (e : exn) :
  file2stem splitext fname ext = Raise e -> exists msg, e = ValueError msg.
Proof.
  unfold file2stem. destruct ext as [x|].
  - destruct (negb (endswith fname x)); [intros [= <-]; eauto | discriminate].
  - destruct (splitext fname) as [stem x].
    destruct (bool_decide (x ∈ ZIPDIC)); [|discriminate].
    destruct (splitext stem); discriminate.
Qed.

(** One iteration, in terms of the ID of the entry. *)
Lemma dir_body_candidate (fname : string) (res : gmap string string) :
  body fname res =
  match cand fname with
  | None => Next res
  | Some id_ =>
      if bool_decide (is_Some (res !! id_))
      then Done (Raise (ValueError (ambiguous_msg id_)))
      else Next (<[id_ := fname]> res)
  end.
Proof.
  unfold id2file_from_dir_body, candidate.
  destruct (isfile (path_join dir_ fname)); [|reflexivity].
  destruct (file2stem splitext fname ext) as [id_|e] eqn:Hstem.
  - destruct (truthy_list ids && negb (bool_decide (id_ ∈ default [] ids)));
      reflexivity.
  - destruct (file2stem_raises _ _ Hstem) as [msg ->]. reflexivity.
Qed.

(** What the loop does from a state [res]: it returns the entries it
    records, added to [res], when their IDs are distinct and new; otherwise
    it raises at the first entry whose ID has been seen, and names that
    ID. *)
Lemma dir_loop_outcome (names : list string) (res : gmap string string) :
  match for_loop body Return names res with
  | Return m =>
      NoDup (cands names).*1
      /\ (forall x, x ∈ (cands names).*1 -> res !! x = None)
      /\ m = list_to_map (cands names) ∪ res
  | Raise e =>
      exists id_ l1 l2,
        e = ValueError (ambiguous_msg id_)
        /\ (cands names).*1 = (l1 ++ id_ :: l2)%list
        /\ NoDup l1
        /\ (forall x, x ∈ l1 -> res !! x = None)
        /\ (id_ ∈ l1 \/ is_Some (res !! id_))
  end.
Proof.
  revert res; induction names as [|fname names IH]; intros res.
  - simpl. split; [constructor|]. split; [intros x Hx; inversion Hx|].
    by rewrite (left_id_L ∅ (∪)).
  - cbn [for_loop]. rewrite dir_body_candidate.
    unfold candidates. cbn [omap list_omap].
    destruct (cand fname) as [id_|] eqn:Hc; [|apply IH].
    fold (cands names). case_bool_decide as Hin.
    + exists id_, [], ((cands names).*1).
      split; [reflexivity|]. split; [reflexivity|]. split; [constructor|].
      split; [intros x Hx; inversion Hx | by right].
    + apply eq_None_not_Some in Hin.
      specialize (IH (<[id_ := fname]> res)).
      destruct (for_loop body Return names (<[id_ := fname]> res)) as [m|e].
      * destruct IH as (Hnd & Hnew & ->).
        assert (Hid : id_ ∉ (cands names).*1).
        { intros Hid. specialize (Hnew _ Hid).
          by rewrite lookup_insert_eq in Hnew. }
        split; [cbn; by constructor|]. split.
        -- intros x Hx. cbn in Hx. apply elem_of_cons in Hx as [->|Hx];
             [done|].
           specialize (Hnew _ Hx).
           destruct (decide (id_ = x)) as [->|Hne]; [done|].
           by rewrite lookup_insert_ne in Hnew.
        -- cbn. rewrite <- insert_union_l.
           rewrite <- insert_union_r; [done|].
           by apply not_elem_of_list_to_map_1.
      * destruct IH as (x & l1 & l2 & -> & Hcs & Hnd & Hnew & Hx).
        destruct (decide (id_ ∈ l1)) as [Hid|Hid].
        { specialize (Hnew _ Hid). by rewrite lookup_insert_eq in Hnew. }
        exists x, (id_ :: l1), l2.
        split; [reflexivity|]. split; [cbn; by rewrite Hcs|].
        split; [by constructor|]. split.
        -- intros y Hy. apply elem_of_cons in Hy as [->|Hy]; [done|].
           specialize (Hnew _ Hy).
           destruct (decide (id_ = y)) as [->|Hne]; [done|].
           by rewrite lookup_insert_ne in Hnew.
        -- destruct Hx as [Hx|Hx]; [left; by right|].
           destruct (decide (id_ = x)) as [->|Hne]; [left; by left|].
           rewrite lookup_insert_ne in Hx by done. by right.
Qed.

(** Without two entries of the same ID, the loop returns the map of the
    entries it records. *)
Lemma dir_loop_distinct (names : list string) :
  NoDup (cands names).*1 ->
  for_loop body Return names ∅ = Return (list_to_map (cands names)).
Proof.
  intros Hnd. pose proof (dir_loop_outcome names ∅) as H.
  destruct (for_loop body Return names ∅) as [m|e].
  - destruct H as (_ & _ & ->). by rewrite (right_id_L ∅ (∪)).
  - destruct H as (x & l1 & l2 & _ & Hcs & _ & _ & [Hx|Hx]).
    + rewrite Hcs in Hnd. apply NoDup_app in Hnd as (_ & Hnd & _).
      destruct (Hnd _ Hx). by left.
    + rewrite lookup_empty in Hx. by destruct Hx.
Qed.

(** With two entries of the same ID, the loop raises; the ID it names is
    the first one, in the order of the listing, to come up a second
    time. *)
Lemma dir_loop_collision (names : list string) :
  ~ NoDup (cands names).*1 ->
  exists id_ l1 l2,
    for_loop body Return names ∅ = Raise (ValueError (ambiguous_msg id_))
    /\ (cands names).*1 = (l1 ++ id_ :: l2)%list
    /\ NoDup l1 /\ id_ ∈ l1.
Proof.
  intros Hnd. pose proof (dir_loop_outcome names ∅) as H.
  destruct (for_loop body Return names ∅) as [m|e].
  - destruct H as (H & _). by destruct Hnd.
  - destruct H as (x & l1 & l2 & -> & Hcs & Hl1 & _ & [Hx|Hx]).
    + by exists x, l1, l2.
    + rewrite lookup_empty in Hx. by destruct Hx.
Qed.

Lemma cands_Permutation (names1 names2 : list string) :
  names1 ≡ₚ names2 -> cands names1 ≡ₚ cands names2.
Proof. intros H. unfold candidates. by rewrite H. Qed.

(** Two entries of a listing, at different positions, with the same
    ID. *)
Lemma cands_collision (names : list string) (i j : nat) (f g id_ : string) :
  i <> j ->
  names !! i = Some f -> names !! j = Some g ->
  cand f = Some id_ -> cand g = Some id_ ->
  ~ NoDup (cands names).*1.
Proof.
  revert i j. induction names as [|h names IH]; intros i j Hij Hi Hj Hf Hg;
    [by rewrite lookup_nil in Hi|].
  assert (Hmem : forall k x, names !! k = Some x -> cand x = Some id_ ->
                   id_ ∈ (cands names).*1).
  { intros k x Hk Hx. apply list_elem_of_fmap. exists (id_, x).
    split; [done|]. apply list_elem_of_omap. exists x.
    split; [by eapply list_elem_of_lookup_2 | by rewrite Hx]. }
  unfold candidates. cbn [omap list_omap]. fold (cands names).
  destruct i as [|i], j as [|j]; [done| | |]; simpl in Hi, Hj.
  - injection Hi as ->. rewrite Hf. cbn. rewrite NoDup_cons.
    intros [Hnin _]. eauto.
  - injection Hj as ->. rewrite Hg. cbn. rewrite NoDup_cons.
    intros [Hnin _]. eauto.
  - assert (Hrec : ~ NoDup (cands names).*1) by (eapply (IH i j); eauto).
    destruct (cand h); [|done]. cbn. rewrite NoDup_cons. tauto.
Qed.

End dir_scan.

(** C6, as the code has it. For two listings of a directory that are
    permutations of each other, with the same extension and the same list
    of IDs: if [id2file_from_dir] returns a map for one, it returns the same
    map, hence the same set of IDs, for the other; if it raises for one, it
    raises the ambiguity error for the other too, and the ID it names is,
    for each listing, the first ID in the order of that listing to come up
    a second time (an ID that two entries share, though not always the same
    one for both listings). Two entries with the same ID always make it
    raise. *)
Theorem id2file_from_dir_permutation
    (splitext : string -> string * string) (isfile : string -> bool)
    (path_join : string -> string -> string)
    (listdir1 listdir2 : string -> list string)
    (dir_ : string) (ext : option string) (ids : option (list string)) :
  listdir1 dir_ ≡ₚ listdir2 dir_ ->
  (forall res,
     id2file_from_dir splitext isfile path_join listdir1 dir_ ext ids
       = Return res ->
     id2file_from_dir splitext isfile path_join listdir2 dir_ ext ids
       = Return res)
  /\ (forall e,
       id2file_from_dir splitext isfile path_join listdir1 dir_ ext ids
         = Raise e ->
       (exists id1 l1 l2,
          e = ValueError (ambiguous_msg id1)
          /\ (candidates splitext isfile path_join dir_ ext ids
                (listdir1 dir_)).*1 = (l1 ++ id1 :: l2)%list
          /\ NoDup l1 /\ id1 ∈ l1)
       /\ (exists id2 l1 l2,
            id2file_from_dir splitext isfile path_join listdir2 dir_ ext ids
              = Raise (ValueError (ambiguous_msg id2))
            /\ (candidates splitext isfile path_join dir_ ext ids
                  (listdir2 dir_)).*1 = (l1 ++ id2 :: l2)%list
            /\ NoDup l1 /\ id2 ∈ l1))
  /\ (forall i j f g id_,
       i <> j ->
       listdir1 dir_ !! i = Some f -> listdir1 dir_ !! j = Some g ->
       candidate splitext isfile path_join dir_ ext ids f = Some id_ ->
       candidate splitext isfile path_join dir_ ext ids g = Some id_ ->
       exists id', 
         id2file_from_dir splitext isfile path_join listdir1 dir_ ext ids
           = Raise (ValueError (ambiguous_msg id'))).
Proof.
  intros Hperm.
  pose proof (cands_Permutation splitext isfile path_join dir_ ext ids
                _ _ Hperm) as Hcs.
  unfold id2file_from_dir.
  destruct (decide (NoDup (candidates splitext isfile path_join dir_ ext ids
                             (listdir1 dir_)).*1)) as [Hnd|Hnd].
  - assert (Hnd2 : NoDup (candidates splitext isfile path_join dir_ ext ids
                            (listdir2 dir_)).*1) by (by rewrite <- Hcs).
    rewrite !dir_loop_distinct by done.
    split; [|split].
    + intros res [= <-]. f_equal. symmetry. by apply list_to_map_proper.
    + intros e [=].
    + intros i j f g id_ Hij Hi Hj Hf Hg.
      destruct (cands_collision splitext isfile path_join dir_ ext ids
                  _ _ _ _ _ _ Hij Hi Hj Hf Hg Hnd).
  - assert (Hnd2 : ~ NoDup (candidates splitext isfile path_join dir_ ext ids
                              (listdir2 dir_)).*1) by (by rewrite <- Hcs).
    destruct (dir_loop_collision splitext isfile path_join dir_ ext ids
                _ Hnd) as (id1 & l1 & l2 & -> & H1).
    destruct (dir_loop_collision splitext isfile path_join dir_ ext ids
                _ Hnd2) as (id2 & l1' & l2' & -> & H2).
    split; [|split].
    + intros res [=].
    + intros e [= <-]. split; [by exists id1, l1, l2 | by exists id2, l1', l2'].
    + intros. by exists id1.
Qed.

(** Two listings of a directory without ambiguity give the same map. *)
Lemma id2file_from_dir_permutation_witness :
  id2file_from_dir Posix.splitext (fun _ => true) Posix.join
    (fun _ => Ex.listing_21) "d" None (Some ["s1"; "s2"])
  = Return {[ "s1" := "s1.tsv.gz"; "s2" := "s2.tsv" ]}.
Proof.
  apply (proj1 (id2file_from_dir_permutation Posix.splitext (fun _ => true)
                  Posix.join (fun _ => Ex.listing_12) (fun _ => Ex.listing_21)
                  "d" None (Some ["s1"; "s2"])
                  (Permutation_sym (Permutation_rev Ex.listing_21)))).
  vm_compute. reflexivity.
Defined.

(** C6, as the claim has it, fails: for two orders of the same four
    entries the ambiguity error names two different IDs. *)
Lemma id2file_from_dir_named_id_depends_on_order :
  Ex.listing_ab ≡ₚ Ex.listing_ba
  /\ id2file_from_dir Posix.splitext (fun _ => true) Posix.join
       (fun _ => Ex.listing_ab) "d" None None
     = Raise (ValueError (ambiguous_msg "a"))
  /\ id2file_from_dir Posix.splitext (fun _ => true) Posix.join
       (fun _ => Ex.listing_ba) "d" None None
     = Raise (ValueError (ambiguous_msg "b"))
  /\ ambiguous_msg "a" <> ambiguous_msg "b".
Proof.
  split; [|split; [|split]].
  - apply (Permutation_app_comm ["a.txt"; "a.csv"] ["b.txt"; "b.csv"]).
  - reflexivity.
  - reflexivity.
  - discriminate.
Qed.

(** ** Read maps *)

#[local] Instance sortkey_le_trans : Transitive sortkey_le.
Proof.
  intros [t1 c1] [t2 c2] [t3 c3]. unfold sortkey_le, sortkey. simpl.
  intros [H12|[H12 Hs12]] [H23|[H23 Hs23]]; try (left; lia).
  right. split; [lia|]. by trans t2.
Qed.

#[local] Instance sortkey_le_total : Total sortkey_le.
Proof.
  intros [t1 c1] [t2 c2]. unfold sortkey_le, sortkey. simpl.
  destruct (Z.lt_trichotomy (- c1) (- c2)) as [H|[H|H]]; [by left; left| |by right; left].
  destruct (total String.le t1 t2); [left|right]; right; split; done || lia.
Qed.

(** Sorted by the sort key and without two entries for one feature means
    strictly in the order of [readmap_before]. *)
Lemma sortkey_sorted_strict (l : list (string * Z)) :
  StronglySorted sortkey_le l -> NoDup l.*1 ->
  StronglySorted readmap_before l.
Proof.
  induction 1 as [|x l Hl IH Hx]; intros Hnd; [constructor|].
  cbn in Hnd. apply NoDup_cons in Hnd as [Hnin Hnd].
  constructor; [by apply IH|].
  rewrite Forall_forall in Hx |- *. intros y Hy.
  specialize (Hx y Hy). destruct x as [t1 c1], y as [t2 c2].
  unfold sortkey_le, sortkey in Hx. unfold readmap_before, str_lt. simpl in *.
  destruct Hx as [Hx|[Hx Hle]]; [left; lia|].
  right. split; [lia|]. split; [done|].
  intros ->. apply Hnin. apply list_elem_of_fmap. by exists (t2, c2).
Qed.

(** C8. For a read whose target is a mapping of features to counts,
    [write_readmap] writes the read and then one [feature:count] entry per
    feature of the mapping, ordered by descending count and, for equal
    counts, by ascending feature identifier. The order is decided on the
    identifiers as they are in the mapping; a name of [namedic] replaces an
    identifier only in the text that is written. Counts [{a: 2, b: 5, c: 5}]
    are written as [b:5], [c:5], [a:2]. *)
Theorem write_readmap_weighted_order
    (namedic : option dict) (read : string) (taxa : gmap string Z) :
  write_readmap [(read, Weighted taxa)] namedic
  = [join TAB
       (read ::
        ((fun x : string * Z =>
            (default x.1 (get_name namedic x.1) ++ ":" ++ str x.2)%string)
         <$> sorted_items taxa))]
  /\ sorted_items taxa ≡ₚ map_to_list taxa
  /\ StronglySorted readmap_before (sorted_items taxa)
  /\ write_readmap
       [("read", Weighted {[ "a" := 2; "b" := 5; "c" := 5 ]})] None
     = ["read" ++ TAB ++ "b:5" ++ TAB ++ "c:5" ++ TAB ++ "a:2"].
Proof.
  split; [|split; [|split]].
  - unfold write_readmap, write_readmap_row. cbn [fmap list_fmap].
    do 3 f_equal. apply list_fmap_ext. intros i [taxon count] _. simpl.
    by destruct (get_name namedic taxon).
  - apply merge_sort_Permutation.
  - apply sortkey_sorted_strict.
    + apply (StronglySorted_merge_sort _).
    + unfold sorted_items. rewrite merge_sort_Permutation.
      apply NoDup_fst_map_to_list.
  - reflexivity.
Qed.

(** ** Strings *)

Section strings.
Open Scope string_scope.

Lemma str_app_cons (c : ascii) (a b : string) : String c a ++ b = String c (a ++ b).
Proof. reflexivity. Qed.

Lemma str_app_nil_l (b : string) : "" ++ b = b.
Proof. reflexivity. Qed.

Lemma str_prefix_cons (c d : ascii) (a b : string) :
  String.prefix (String c a) (String d b) = bool_decide (c = d) && String.prefix a b.
Proof. simpl. destruct (ascii_dec c d); by case_bool_decide. Qed.

Lemma str_prefix_app (sep b : string) : String.prefix sep (sep ++ b) = true.
Proof.
  induction sep as [|c sep IH]; [by destruct b|].
  rewrite str_app_cons, str_prefix_cons, IH. by rewrite bool_decide_true.
Qed.

Lemma str_prefix_app_l (sep a b : string) :
  String.prefix sep a = true -> String.prefix sep (a ++ b) = true.
Proof.
  revert a; induction sep as [|c sep IH]; intros a; [by destruct (a ++ b)|].
  destruct a as [|d a]; [discriminate|].
  rewrite str_app_cons, !str_prefix_cons. intros [-> H]%andb_prop.
  by rewrite (IH _ H).
Qed.

(** Whether [sep] starts a string is decided by the first [length sep] characters. *)
Lemma str_prefix_app_same (sep a b b' : string) :
  (String.length sep <= String.length a)%nat ->
  String.prefix sep (a ++ b) = String.prefix sep (a ++ b').
Proof.
  revert a; induction sep as [|c sep IH]; intros a Hlen.
  - by destruct (a ++ b), (a ++ b').
  - destruct a as [|d a]; [simpl in Hlen; lia|].
    rewrite !str_app_cons, !str_prefix_cons. f_equal. apply IH. simpl in Hlen. lia.
Qed.

Lemma str_length_app (a b : string) :
  String.length (a ++ b) = (String.length a + String.length b)%nat.
Proof. induction a as [|c a IH]; [done|]. rewrite str_app_cons. simpl. by rewrite IH. Qed.

Lemma str_drop_app_length (sep b : string) : drop (String.length sep) (sep ++ b) = b.
Proof. induction sep as [|c sep IH]; [by destruct b|]. by rewrite str_app_cons. Qed.

Lemma str_prefix_drop (sep s : string) :
  String.prefix sep s = true -> s = sep ++ drop (String.length sep) s.
Proof.
  revert s; induction sep as [|c sep IH]; intros s; [by destruct s|].
  destruct s as [|d s]; [discriminate|].
  rewrite str_prefix_cons. intros [Hcd H]%andb_prop.
  apply bool_decide_eq_true in Hcd as ->.
  rewrite str_app_cons. simpl. f_equal. by apply IH.
Qed.

Lemma find_eq (sep s : string) :
  find sep s =
  if String.prefix sep s then Some ("", drop (String.length sep) s)
  else match s with
       | "" => None
       | String c s' =>
           match find sep s' with
           | Some (a, b) => Some (String c a, b)
           | None => None
           end
       end.
Proof. by destruct s. Qed.

Lemma find_Some (sep s a b : string) :
  find sep s = Some (a, b) -> s = a ++ sep ++ b.
Proof.
  revert a; induction s as [|c s IH]; intros a; rewrite find_eq;
    destruct (String.prefix sep _) eqn:Hp;
    try (intros [= <- <-]; rewrite str_app_nil_l; by apply str_prefix_drop);
    try discriminate.
  destruct (find sep s) as [[a' b']|]; [|discriminate].
  intros [= <- <-]. rewrite str_app_cons. f_equal. by apply IH.
Qed.

Lemma str_app_assoc (a b c : string) : (a ++ b) ++ c = a ++ b ++ c.
Proof.
  induction a as [|x a IH]; [done|]. rewrite !str_app_cons. by rewrite IH.
Qed.

Lemma find_app (sep a b b' : string) :
  find sep (a ++ sep ++ b) = Some (a, b) ->
  find sep (a ++ sep ++ b') = Some (a, b').
Proof.
  induction a as [|c a IH].
  - intros _. rewrite str_app_nil_l, find_eq, str_prefix_app.
    by rewrite str_drop_app_length.
  - rewrite !str_app_cons, !(find_eq sep (String _ _)).
    rewrite <- !str_app_cons, <- !str_app_assoc.
    rewrite (str_prefix_app_same sep (String c a ++ sep) b b').
    2:{ rewrite str_length_app. lia. }
    destruct (String.prefix sep _); [discriminate|].
    rewrite !str_app_assoc.
    destruct (find sep (a ++ sep ++ b)) as [[x y]|] eqn:Hf; [|discriminate].
    intros [= -> ->]. by rewrite (IH eq_refl).
Qed.

(** No occurrence of [sep] lies in what comes before the first one. *)
Lemma find_before (sep a b : string) :
  nonempty sep = true ->
  find sep (a ++ sep ++ b) = Some (a, b) -> find sep a = None.
Proof.
  intros Hsep. induction a as [|c a IH].
  - intros _. rewrite find_eq. by destruct sep.
  - rewrite str_app_cons, !(find_eq sep (String _ _)).
    destruct (String.prefix sep (String c (a ++ sep ++ b))) eqn:Hp;
      [discriminate|].
    destruct (String.prefix sep (String c a)) eqn:Hp'.
    { apply (str_prefix_app_l _ _ (sep ++ b)) in Hp'.
      rewrite str_app_cons in Hp'. congruence. }
    destruct (find sep (a ++ sep ++ b)) as [[x y]|] eqn:Hf; [|discriminate].
    intros [= -> ->]. by rewrite (IH eq_refl).
Qed.

Lemma find_length (sep s a b : string) :
  nonempty sep = true ->
  find sep s = Some (a, b) -> (String.length b < String.length s)%nat.
Proof.
  intros Hsep Hf. rewrite (find_Some _ _ _ _ Hf), !str_length_app.
  destruct sep; [discriminate|]. simpl. lia.
Qed.

(** More cuts than characters change nothing. *)
Lemma split_upto_enough (sep : string) (n : nat) (s : string) :
  nonempty sep = true ->
  (String.length s <= n)%nat ->
  split_upto n sep s = split_upto (String.length s) sep s.
Proof.
  intros Hsep. revert s.
  induction n as [n IH] using lt_wf_ind. intros s Hn.
  destruct n as [|n].
  - by replace (String.length s) with O by lia.
  - destruct (String.length s) as [|m] eqn:Hlen.
    + destruct s; [|discriminate]. by destruct sep.
    + cbn [split_upto]. destruct (find sep s) as [[a b]|] eqn:Hf; [|done].
      pose proof (find_length _ _ _ _ Hsep Hf) as Hb.
      f_equal. rewrite (IH n) by lia. rewrite (IH m); [done|lia|lia].
Qed.

(** [split] cuts at the first occurrence of the separator and goes on with
    what follows it. *)
Lemma split_eq (sep s : string) :
  nonempty sep = true ->
  split sep s =
  match find sep s with
  | None => Return [s]
  | Some (a, b) => bind (split sep b) (fun l => Return (a :: l))
  end.
Proof.
  intros Hsep. unfold split. rewrite Hsep.
  destruct (String.length s) as [|m] eqn:Hlen.
  - destruct s; [|discriminate]. by destruct sep.
  - cbn [split_upto]. destruct (find sep s) as [[a b]|] eqn:Hf; [|done].
    pose proof (find_length _ _ _ _ Hsep Hf) as Hb.
    cbn [bind]. do 2 f_equal. apply split_upto_enough; [done|lia].
Qed.

Lemma split_two_columns (sep s c0 c1 : string) (more : list string) :
  nonempty sep = true ->
  split sep s = Return (c0 :: c1 :: more) ->
  split sep (c0 ++ sep ++ c1) = Return [c0; c1].
Proof.
  intros Hsep. rewrite (split_eq sep s Hsep).
  destruct (find sep s) as [[a b]|] eqn:Hf; [|discriminate].
  rewrite (split_eq sep b Hsep).
  destruct (find sep b) as [[a' b']|] eqn:Hf'.
  - destruct (split sep b') as [l|e]; [|discriminate]. simpl.
    intros [= -> -> _].
    pose proof (find_Some _ _ _ _ Hf) as ->.
    pose proof (find_Some _ _ _ _ Hf') as ->.
    rewrite (split_eq _ _ Hsep).
    assert (Hc1 : find sep c1 = None) by (by eapply find_before).
    assert (Hc0 : find sep (c0 ++ sep ++ c1) = Some (c0, c1)).
    { exact (find_app _ _ _ _ Hf). }
    rewrite Hc0, (split_eq _ _ Hsep), Hc1. done.
  - simpl. intros [= -> -> _].
    pose proof (find_Some _ _ _ _ Hf) as ->.
    by rewrite (split_eq _ _ Hsep), Hf, (split_eq _ _ Hsep), Hf'.
Qed.

Lemma split_nonempty (sep s : string) (l : list string) :
  split sep s = Return l -> l <> [].
Proof.
  unfold split. destruct (nonempty sep); [|discriminate].
  intros [= <-]. destruct (String.length s); simpl; [done|].
  by destruct (find sep s) as [[a b]|].
Qed.

End strings.

(** ** Mapping records *)

Section mapping_records.

Variable feat_n_cnt : string -> string * Z.
Variable sep : string.
Variable count : bool.
Hypothesis sep_nonempty : nonempty sep = true.

Local Abbreviation parse := (read_map_line feat_n_cnt sep).

(** With a separator that is not empty, no line makes the parser raise. *)
Lemma read_map_line_returns (multi : option bool) (line : string) :
  exists o, parse multi count line = Return o.
Proof.
  unfold read_map_line, split. rewrite sep_nonempty. cbn [bind].
  pose proof (split_nonempty sep (rstrip line)) as Hne.
  unfold split in Hne. rewrite sep_nonempty in Hne.
  specialize (Hne _ eq_refl).
  destruct (split_upto _ sep (rstrip line)) as [|key [|value more]];
    [done|simpl; eauto|].
  destruct multi as [[|]|]; simpl; destruct count; simpl;
    try destruct more; eauto.
Qed.

Lemma read_map_yielded (multi : option bool) (fh : list string) :
  read_map feat_n_cnt sep multi count fh
  = (fh ≫= (fun line => yielded (parse multi count line)), None).
Proof.
  induction fh as [|line fh IH]; [done|].
  cbn [read_map]. rewrite IH, bind_cons.
  destruct (read_map_line_returns multi line) as [[kv|] ->]; reflexivity.
Qed.

(** C9, as the code has it. For every line, with [row] the columns that
    the separator cuts out of the line once its trailing white space is
    removed: a record of one column is skipped in every mode; in single
    mode ([multi=False]) a record of two or more columns yields its first
    two columns, and this is the pair that parsing the line made of these
    two columns alone yields whenever [rstrip] leaves that line as it is;
    in the default mode ([multi=None]) a record of two columns yields them
    and a record of more than two columns is skipped; in multi mode
    ([multi=True]) columns two through last are yielded in order. The
    pairs come in the order of the lines, one for each line that is not
    skipped, identical pairs included, and what a prefix of the input
    yields does not depend on the lines after it. *)
Theorem read_map_modes :
  (forall multi line c,
     split sep (rstrip line) = Return [c] ->
     parse multi count line = Return None)
  /\ (forall line key value more,
        split sep (rstrip line) = Return (key :: value :: more) ->
        parse (Some false) count line
        = Return (Some (key, one_value feat_n_cnt count value))
        /\ (rstrip (key ++ sep ++ value) = (key ++ sep ++ value)%string ->
            parse (Some false) count (key ++ sep ++ value)
            = parse (Some false) count line))
  /\ (forall line key value,
        split sep (rstrip line) = Return [key; value] ->
        parse None count line
        = Return (Some (key, one_value feat_n_cnt count value)))
  /\ (forall line key value x more,
        split sep (rstrip line) = Return (key :: value :: x :: more) ->
        parse None count line = Return None)
  /\ (forall line key value more,
        split sep (rstrip line) = Return (key :: value :: more) ->
        parse (Some true) count line
        = Return (Some (key,
                        all_values feat_n_cnt count (value :: more))))
  /\ (forall multi fh,
        read_map feat_n_cnt sep multi count fh
        = (fh ≫= (fun line => yielded (parse multi count line)), None))
  /\ (forall multi fh1 fh2,
        (read_map feat_n_cnt sep multi count (fh1 ++ fh2)).1
        = ((read_map feat_n_cnt sep multi count fh1).1
           ++ (read_map feat_n_cnt sep multi count fh2).1)%list).
Proof.
  assert (Hsingle : forall line key value more,
    split sep (rstrip line) = Return (key :: value :: more) ->
    parse (Some false) count line
    = Return (Some (key, one_value feat_n_cnt count value))).
  { intros line key value more Hrow. unfold read_map_line.
    rewrite Hrow. simpl. unfold one_value.
    destruct (2 <? _)%nat; by destruct count. }
  split; [|split; [|split; [|split; [|split; [|split]]]]].
  - intros multi line c Hrow. unfold read_map_line. by rewrite Hrow.
  - intros line key value more Hrow. split; [eauto|].
    intros Hstrip. rewrite (Hsingle _ _ _ _ Hrow).
    apply (Hsingle _ key value []). rewrite Hstrip.
    by eapply split_two_columns.
  - intros line key value Hrow. unfold read_map_line.
    rewrite Hrow. simpl. unfold one_value. by destruct count.
  - intros line key value x more Hrow. unfold read_map_line.
    by rewrite Hrow.
  - intros line key value more Hrow. unfold read_map_line.
    rewrite Hrow. simpl. unfold all_values. by destruct count.
  - apply read_map_yielded.
  - intros multi fh1 fh2. rewrite !read_map_yielded. simpl.
    apply bind_app.
Qed.

End mapping_records.

(** A record of three columns in single mode yields what its first two
    columns alone yield. *)
Lemma read_map_modes_witness :
  read_map_line Ex.no_count TAB (Some false) false ("k" ++ TAB ++ "v")
  = read_map_line Ex.no_count TAB (Some false) false Ex.record_three.
Proof.
  apply (proj2 (proj1 (proj2
           (read_map_modes Ex.no_count TAB false eq_refl))
           Ex.record_three "k" "v" ["w"] eq_refl)).
  reflexivity.
Defined.

(** C9, as the claim has it, fails in single mode: a record whose second
    column is empty yields a pair although its first two columns alone are
    skipped, and a record whose second column ends with white space yields
    another value than its first two columns alone. *)
Lemma read_map_single_first_two_columns_differ :
  read_map_line Ex.no_count TAB (Some false) false Ex.record_empty_second
  <> read_map_line Ex.no_count TAB (Some false) false (join TAB ["k"; ""])
  /\ read_map_line Ex.no_count TAB (Some false) false Ex.record_space_second
     <> read_map_line Ex.no_count TAB (Some false) false
          (join TAB ["k"; "v "])
  /\ split TAB (rstrip Ex.record_empty_second) = Return ["k"; ""; "w"]
  /\ read_map_line Ex.no_count TAB (Some false) false Ex.record_empty_second
     = Return (Some ("k", Value ""))
  /\ read_map_line Ex.no_count TAB (Some false) false (join TAB ["k"; ""])
     = Return None
  /\ split TAB (rstrip Ex.record_space_second) = Return ["k"; "v "; "w"]
  /\ read_map_line Ex.no_count TAB (Some false) false Ex.record_space_second
     = Return (Some ("k", Value "v "))
  /\ read_map_line Ex.no_count TAB (Some false) false (join TAB ["k"; "v "])
     = Return (Some ("k", Value "v")).
Proof. repeat split; try reflexivity; discriminate. Qed.

(** ** Profile tables *)

#[local] Instance fkey_le_trans : Transitive fkey_le.
Proof.
  intros [f1|s1 f1] [f2|s2 f2] [f3|s3 f3]; simpl; try done.
  - intros ??. by trans f2.
  - intros [[H12 Hne12]|[-> H12]] [[H23 Hne23]|[-> H23]].
    + left. split; [by trans s2|]. intros ->.
      apply Hne12. by apply (anti_symm String.le).
    + left. by split.
    + left. by split.
    + right. split; [done|]. by trans f2.
Qed.

#[local] Instance fkey_le_total : Total fkey_le.
Proof.
  intros [f1|s1 f1] [f2|s2 f2]; simpl; try tauto.
  - apply (total String.le).
  - destruct (decide (s1 = s2)) as [->|Hne].
    + destruct (total String.le f1 f2); [left|right]; right; by split.
    + destruct (total String.le s1 s2); [left|right]; left;
        split; congruence.
Qed.

(** When the keys can be sorted, [sorted_keys] returns them in ascending
    order. *)
Lemma sorted_keys_returns (keys l : list fkey) :
  sorted_keys keys = Return l ->
  mixed keys = false /\ l ≡ₚ keys /\ StronglySorted fkey_le l.
Proof.
  unfold sorted_keys. destruct (mixed keys); [done|].
  intros [= <-]. split; [done|]. split.
  - apply merge_sort_Permutation.
  - apply (StronglySorted_merge_sort _).
Qed.

Lemma mapM_returns {A B : Type} (f : A -> result B) (g : A -> B)
    (l : list A) :
  Forall (fun x => f x = Return (g x)) l -> mapM f l = Return (g <$> l).
Proof.
  induction 1 as [|x l Hx _ IH]; [done|].
  cbn [mapM]. by rewrite Hx, IH.
Qed.

Lemma for_loop_next {L S R : Type} (body : L -> S -> flow S R)
    (finish : S -> R) (step : S -> L -> S) (l : list L) (s : S) :
  (forall x s, x ∈ l -> body x s = Next (step s x)) ->
  for_loop body finish l s = finish (foldl step s l).
Proof.
  revert s; induction l as [|x l IH]; intros s Hbody; [done|].
  cbn [for_loop foldl]. rewrite Hbody by left.
  apply IH. intros y s' Hy. apply Hbody. by right.
Qed.

Lemma str_zero : str 0 = "0".
Proof. reflexivity. Qed.

Section tables.

Variable lineage_str : string -> dict -> option dict -> string.
Variable data : profile.
Variables tree rankdic namedic : option dict.
Variable name_as_id : bool.

(** The metadata record that [prep_table] builds for a key. *)
Local Abbreviation metadatum_of key :=
  (prep_table_metadatum lineage_str tree rankdic namedic name_as_id
     (prep_table_namecol namedic name_as_id)
     (prep_table_metacols tree rankdic
        (prep_table_namecol namedic name_as_id))
     (get_name namedic (unpack key).2) (unpack key).2).

(** Both functions work on the same samples. *)
Lemma table_samples_same (samples : option (list string)) :
  write_table_samples data samples = prep_table_samples data samples.
Proof. reflexivity. Qed.

(** The samples that the functions work on are samples of the profile. *)
Lemma table_samples_in_data (samples : option (list string)) :
  Forall (fun x => is_Some (data !! x)) (write_table_samples data samples).
Proof.
  unfold write_table_samples. rewrite Forall_forall. intros x Hx.
  destruct (truthy_list samples).
  - by apply list_elem_of_filter in Hx as [Hx _].
  - unfold sorted_str in Hx. rewrite merge_sort_Permutation in Hx.
    apply elem_of_elements in Hx. by apply elem_of_dom.
Qed.

Section rows.

Variable samples : list string.
Hypothesis samples_in_data : Forall (fun x => is_Some (data !! x)) samples.

Lemma get_count_returns (key : fkey) :
  mapM (fun x => get_count data x key) samples
  = Return (datum_of data samples key).
Proof.
  apply mapM_returns. eapply Forall_impl; [exact samples_in_data|].
  intros x [m Hm]. unfold get_count, count_of. rewrite Hm. simpl.
  by destruct (m !! key).
Qed.

Lemma get_cell_returns (key : fkey) :
  mapM (fun sample => get_cell data sample key) samples
  = Return (str <$> datum_of data samples key).
Proof.
  unfold datum_of. rewrite <- list_fmap_compose.
  apply mapM_returns. eapply Forall_impl; [exact samples_in_data|].
  intros x [m Hm]. unfold get_cell, count_of, compose. rewrite Hm.
  cbn [mbind option_bind]. destruct (m !! key); reflexivity.
Qed.

Lemma write_table_row_returns (key : fkey) :
  write_table_row lineage_str data samples tree rankdic namedic name_as_id
    key
  = Return (row_of lineage_str data samples tree rankdic namedic
              name_as_id key).
Proof.
  unfold write_table_row, row_of, meta_of, label_of, name_value,
    rank_value, lineage_value.
  destruct (unpack key) as [stratum feature] eqn:Hkey.
  rewrite get_cell_returns. cbn [bind fst snd].
  destruct (truthy namedic && negb name_as_id), (truthy rankdic),
    (truthy tree); cbn [fmap list_fmap app snd];
    rewrite <- ?app_assoc, ?app_nil_r; reflexivity.
Qed.

(** The loop of [write_table] prints one row for every key it is given
    and counts it. *)
Lemma write_table_loop (keys : list fkey) (out : list string) (n : nat) :
  for_loop
    (write_table_body lineage_str data samples tree rankdic namedic
       name_as_id)
    (fun st => (st.1, Return (List.length samples, st.2))) keys (out, n)
  = ((out ++ ((fun key =>
                 join TAB (row_of lineage_str data samples tree rankdic
                             namedic name_as_id key)) <$> keys))%list,
     Return (List.length samples, (n + List.length keys)%nat)).
Proof.
  revert out n; induction keys as [|key keys IH]; intros out n.
  - cbn. by rewrite app_nil_r, Nat.add_0_r.
  - cbn [for_loop]. unfold write_table_body at 1.
    rewrite write_table_row_returns. cbn [fst snd]. rewrite IH.
    cbn [fmap list_fmap List.length]. rewrite <- app_assoc.
    do 3 f_equal. lia.
Qed.

(** The loop of [prep_table] adds a row, a label and a metadata record
    for every key it is given that has a count other than 0, and for no
    other key. *)
Lemma prep_table_loop (keys : list fkey) (features : list string)
    (dat : list (list Z)) (metadata : list (list (string * pyval))) :
  for_loop
    (prep_table_body lineage_str data samples tree rankdic namedic
       name_as_id (prep_table_namecol namedic name_as_id)
       (prep_table_metacols tree rankdic
          (prep_table_namecol namedic name_as_id)))
    (fun '(features, dat, metadata) =>
       Return (dat, features, samples, metadata))
    keys (features, dat, metadata)
  = Return
      ((dat ++ (datum_of data samples <$> retained data samples keys))%list,
       (features
        ++ (label_of namedic name_as_id <$> retained data samples keys))%list,
       samples,
       (metadata
        ++ ((fun key => metadatum_of key)
            <$> retained data samples keys))%list).
Proof.
  revert features dat metadata.
  induction keys as [|key keys IH]; intros features dat metadata.
  - cbn. by rewrite !app_nil_r.
  - cbn [for_loop]. unfold prep_table_body at 1.
    rewrite get_count_returns. unfold retained. rewrite filter_cons.
    fold (retained data samples keys).
    destruct (any (datum_of data samples key)) eqn:Hany; cbn [negb].
    + rewrite decide_True by done.
      unfold label_of at 1. destruct key as [feature|stratum feature];
        cbn [unpack fst snd]; rewrite IH; cbn [fmap list_fmap];
        by rewrite <- !app_assoc.
    + rewrite decide_False by done. apply IH.
Qed.

End rows.

(** [write_table] on keys that can be sorted: the header, then one row
    for each key of the profile, in sorted order. *)
Lemma write_table_sorted (samples : option (list string))
    (keys : list fkey) :
  sorted_keys (elements (allkeys data)) = Return keys ->
  write_table lineage_str data samples tree rankdic namedic name_as_id
  = (join TAB
       (write_table_header (write_table_samples data samples) tree rankdic
          namedic name_as_id)
     :: ((fun key =>
            join TAB
              (row_of lineage_str data (write_table_samples data samples)
                 tree rankdic namedic name_as_id key)) <$> keys),
     Return (List.length (write_table_samples data samples),
             List.length keys)).
Proof.
  intros Hkeys. unfold write_table. rewrite Hkeys.
  rewrite write_table_loop by apply table_samples_in_data. done.
Qed.

(** [prep_table] on keys that can be sorted: a row, a label and a
    metadata record for each key of the profile that has a count other
    than 0 in some sample, in sorted order, and all the samples. *)
Lemma prep_table_sorted (samples : option (list string))
    (keys : list fkey) :
  sorted_keys (elements (allkeys data)) = Return keys ->
  prep_table lineage_str data samples tree rankdic namedic name_as_id
  = Return
      (datum_of data (prep_table_samples data samples)
         <$> retained data (prep_table_samples data samples) keys,
       label_of namedic name_as_id
         <$> retained data (prep_table_samples data samples) keys,
       prep_table_samples data samples,
       (fun key => metadatum_of key)
         <$> retained data (prep_table_samples data samples) keys).
Proof.
  intros Hkeys. unfold prep_table. rewrite Hkeys. cbn [bind].
  rewrite prep_table_loop by apply table_samples_in_data. done.
Qed.

(** Keys that cannot be sorted make [sorted_keys] raise [TypeError]. *)
Lemma sorted_keys_raises (keys : list fkey) (e : exn) :
  sorted_keys keys = Raise e -> exists msg, e = TypeError msg.
Proof.
  unfold sorted_keys. destruct (mixed keys); [|done].
  intros [= <-]. eauto.
Qed.

End tables.

(** C5, as the code has it. [write_table] and [prep_table] work on the
    same samples: the list that is passed, reduced to the samples of the
    profile and in the order of the caller, when a list that is not empty
    is passed; all the samples of the profile, sorted, when no list or an
    empty list is passed. These samples are all keys of the profile, so
    every count that is looked up while a row is built is looked up in a
    sample of the profile, and neither function raises [KeyError]. *)
Theorem table_samples_active
    (lineage_str : string -> dict -> option dict -> string)
    (data : profile) (samples : option (list string))
    (tree rankdic namedic : option dict) (name_as_id : bool) :
  write_table_samples data samples = prep_table_samples data samples
  /\ (forall x l,
        write_table_samples data (Some (x :: l))
        = filter (fun s => is_Some (data !! s)) (x :: l)
        /\ write_table_samples data (Some (x :: l)) `sublist_of` x :: l)
  /\ write_table_samples data None = sorted_str (elements (dom data))
  /\ write_table_samples data (Some []) = sorted_str (elements (dom data))
  /\ sorted_str (elements (dom data)) ≡ₚ elements (dom data)
  /\ StronglySorted String.le (sorted_str (elements (dom data)))
  /\ Forall (fun x => is_Some (data !! x)) (write_table_samples data samples)
  /\ (forall key,
        mapM (fun sample => get_cell data sample key)
          (write_table_samples data samples)
        = Return (str <$> datum_of data (write_table_samples data samples)
                            key))
  /\ (forall key,
        mapM (fun x => get_count data x key)
          (prep_table_samples data samples)
        = Return (datum_of data (prep_table_samples data samples) key))
  /\ (forall k,
        (write_table lineage_str data samples tree rankdic namedic
           name_as_id).2 <> Raise (KeyError k))
  /\ (forall k,
        prep_table lineage_str data samples tree rankdic namedic name_as_id
        <> Raise (KeyError k)).
Proof.
  split; [reflexivity|]. split.
  { intros x l. split; [reflexivity|]. apply sublist_filter. }
  split; [reflexivity|]. split; [reflexivity|].
  split; [apply merge_sort_Permutation|].
  split; [apply (StronglySorted_merge_sort _)|].
  split; [apply table_samples_in_data|].
  split; [intros key; apply get_cell_returns, table_samples_in_data|].
  split; [intros key; apply get_count_returns, table_samples_in_data|].
  split; intros k.
  - destruct (sorted_keys (elements (allkeys data))) as [keys|e] eqn:Hkeys.
    + by rewrite (write_table_sorted _ _ _ _ _ _ _ _ Hkeys).
    + unfold write_table. rewrite Hkeys.
      destruct (sorted_keys_raises _ _ Hkeys) as [msg ->]. done.
  - destruct (sorted_keys (elements (allkeys data))) as [keys|e] eqn:Hkeys.
    + by rewrite (prep_table_sorted _ _ _ _ _ _ _ _ Hkeys).
    + unfold prep_table. rewrite Hkeys.
      destruct (sorted_keys_raises _ _ Hkeys) as [msg ->]. done.
Qed.

(** C5, as the claim has it, fails: when the list that is passed is
    empty, the functions do not work on that list reduced to the samples of
    the profile, which is empty, but on all the samples of the profile. *)
Lemma table_samples_empty_list_not_filtered :
  write_table_samples Ex.profile_one (Some [])
  <> filter (fun s => is_Some (Ex.profile_one !! s)) []
  /\ prep_table_samples Ex.profile_one (Some [])
     <> filter (fun s => is_Some (Ex.profile_one !! s)) []
  /\ write_table_samples Ex.profile_one (Some []) = ["S1"]
  /\ prep_table_samples Ex.profile_one (Some []) = ["S1"]
  /\ write_table Ex.lineage Ex.profile_one (Some []) None None None false
     = (["#FeatureID" ++ TAB ++ "S1"; "f1" ++ TAB ++ "3"],
        Return (1%nat, 1%nat))
  /\ prep_table Ex.lineage Ex.profile_one (Some []) None None None false
     = Return ([[3]], ["f1"], ["S1"], [[]]).
Proof. repeat split; try reflexivity; discriminate. Qed.

(** The keys of a profile, as [allkeys] collects them: the keys of its
    samples. *)
Lemma elem_of_allkeys (data : profile) (key : fkey) :
  key ∈ allkeys data
  <-> exists sample m, data !! sample = Some m /\ is_Some (m !! key).
Proof.
  unfold allkeys.
  apply (map_fold_weak_ind
    (fun (acc : gset fkey) (d : profile) =>
       key ∈ acc <->
       exists sample m, d !! sample = Some m /\ is_Some (m !! key))).
  - split; [set_solver|]. intros (sample & m & Hm & _).
    by rewrite lookup_empty in Hm.
  - intros sample m d acc Hnone IH. rewrite elem_of_union, elem_of_dom, IH.
    split.
    + intros [Hkey|(sample' & m' & Hm' & Hkey)].
      * exists sample, m. by rewrite lookup_insert_eq.
      * exists sample', m'. split; [|done].
        rewrite lookup_insert_ne; [done|]. intros ->. congruence.
    + intros (sample' & m' & Hm' & Hkey).
      destruct (decide (sample = sample')) as [->|Hne].
      * rewrite lookup_insert_eq in Hm'. injection Hm' as ->. by left.
      * rewrite lookup_insert_ne in Hm' by done. right. eauto.
Qed.

Section metadata.

Variable lineage_str : string -> dict -> option dict -> string.
Variables tree rankdic namedic : option dict.
Variable name_as_id : bool.

Local Abbreviation metadatum_of key :=
  (prep_table_metadatum lineage_str tree rankdic namedic name_as_id
     (prep_table_namecol namedic name_as_id)
     (prep_table_metacols tree rankdic
        (prep_table_namecol namedic name_as_id))
     (get_name namedic (unpack key).2) (unpack key).2).

Lemma truthy_Some_empty : truthy (Some (∅ : dict)) = false.
Proof. reflexivity. Qed.

Lemma truthy_Some_ne (m : dict) : m <> ∅ -> truthy (Some m) = true.
Proof. intros Hm. unfold truthy. by rewrite bool_decide_false. Qed.

(** The header of the text table: the samples, then the names of the
    active metadata columns. *)
Lemma write_table_header_columns (samples : list string) (key : fkey) :
  write_table_header samples tree rankdic namedic name_as_id
  = ("#FeatureID" :: samples
     ++ (meta_of lineage_str tree rankdic namedic name_as_id key).*1)%list.
Proof.
  unfold write_table_header, meta_of.
  destruct (truthy namedic && negb name_as_id), (truthy rankdic),
    (truthy tree); reflexivity.
Qed.

(** The keys of a metadata record are the names of the active metadata
    columns, in their order. *)
Lemma prep_table_metadatum_keys (key : fkey) :
  (metadatum_of key).*1
  = (meta_of lineage_str tree rankdic namedic name_as_id key).*1.
Proof.
  unfold prep_table_metadatum, prep_table_metacols, prep_table_namecol,
    meta_of, dict_and.
  destruct (truthy namedic && negb name_as_id);
    destruct rankdic as [r|]; try destruct (decide (r = ∅)) as [->|Hr];
    destruct tree as [t|]; try destruct (decide (t = ∅)) as [->|Ht];
    rewrite ?truthy_Some_empty, ?truthy_Some_ne by done;
    rewrite ?bool_decide_true, ?bool_decide_false by done;
    reflexivity.
Qed.

(** Unless the rank dictionary is an empty [dict] while the tree is not
    empty, a metadata record binds the name of every active metadata
    column to the value of that column. *)
Lemma prep_table_metadatum_values (key : fkey) :
  rankdic <> Some ∅ \/ truthy tree = false ->
  metadatum_of key
  = (fun cv : string * string => (cv.1, PyStr cv.2))
      <$> meta_of lineage_str tree rankdic namedic name_as_id key.
Proof.
  intros Hcond.
  unfold prep_table_metadatum, prep_table_metacols, prep_table_namecol,
    meta_of, dict_and, name_value, rank_value, lineage_value.
  destruct (truthy namedic && negb name_as_id);
    destruct rankdic as [r|]; try destruct (decide (r = ∅)) as [->|Hr];
    destruct tree as [t|]; try destruct (decide (t = ∅)) as [->|Ht];
    rewrite ?truthy_Some_empty, ?truthy_Some_ne by done;
    rewrite ?bool_decide_true, ?bool_decide_false by done;
    try reflexivity.
  all: destruct Hcond as [Hcond|Hcond]; [done|].
  all: by rewrite truthy_Some_ne in Hcond.
Qed.

End metadata.

(** A key is retained exactly when one of its counts in the samples is
    not 0. *)
Lemma elem_of_retained (data : profile) (samples : list string)
    (keys : list fkey) (key : fkey) :
  key ∈ retained data samples keys
  <-> key ∈ keys
      /\ exists sample, sample ∈ samples /\ count_of data sample key <> 0.
Proof.
  unfold retained. rewrite list_elem_of_filter. unfold any, datum_of.
  rewrite existsb_exists. split.
  - intros [(n & Hn & Hnz) Hkey]. split; [done|].
    apply list_elem_of_In, list_elem_of_fmap in Hn as (sample & -> & Hs).
    exists sample. split; [done|]. by apply Z.eqb_neq, negb_true_iff.
  - intros [Hkey (sample & Hs & Hnz)]. split; [|done].
    exists (count_of data sample key). split.
    + apply list_elem_of_In, list_elem_of_fmap. eauto.
    + by apply negb_true_iff, Z.eqb_neq.
Qed.

(** What [prep_table] does about rows without a count: a key of the
    profile gets a row of the matrix, a label and a metadata record exactly
    when one of its counts in the active samples is not 0, and every active
    sample keeps its column. *)
Lemma prep_table_drops_zero_rows
    (lineage_str : string -> dict -> option dict -> string)
    (data : profile) (samples : option (list string))
    (tree rankdic namedic : option dict) (name_as_id : bool)
    (keys : list fkey) :
  sorted_keys (elements (allkeys data)) = Return keys ->
  exists kept dat features metadata,
    prep_table lineage_str data samples tree rankdic namedic name_as_id
    = Return (dat, features, prep_table_samples data samples, metadata)
    /\ dat = datum_of data (prep_table_samples data samples) <$> kept
    /\ features = label_of namedic name_as_id <$> kept
    /\ List.length metadata = List.length kept
    /\ Forall (fun datum =>
                 List.length datum
                 = List.length (prep_table_samples data samples)) dat
    /\ (forall key,
          key ∈ kept
          <-> key ∈ keys
              /\ exists sample,
                   sample ∈ prep_table_samples data samples
                   /\ count_of data sample key <> 0).
Proof.
  intros Hkeys. eexists _, _, _, _. split.
  { apply prep_table_sorted, Hkeys. }
  split; [reflexivity|]. split; [reflexivity|].
  split; [by rewrite length_fmap|]. split.
  - rewrite Forall_fmap. apply Forall_forall. intros key _.
    unfold compose, datum_of. by rewrite length_fmap.
  - intros key. apply elem_of_retained.
Qed.

(** What the two functions share: over the same samples and the same
    sorted keys, [write_table] prints a row for every key, made of the
    label, the counts in decimal and the metadata values, and [prep_table]
    returns the label and the counts of the keys that it retains. *)
Lemma tables_share_aggregation
    (lineage_str : string -> dict -> option dict -> string)
    (data : profile) (samples : option (list string))
    (tree rankdic namedic : option dict) (name_as_id : bool)
    (keys : list fkey) :
  sorted_keys (elements (allkeys data)) = Return keys ->
  let active := write_table_samples data samples in
  write_table lineage_str data samples tree rankdic namedic name_as_id
  = (join TAB (write_table_header active tree rankdic namedic name_as_id)
     :: ((fun key =>
            join TAB
              (label_of namedic name_as_id key
               :: (str <$> datum_of data active key)
               ++ (meta_of lineage_str tree rankdic namedic name_as_id
                     key).*2)%list) <$> keys),
     Return (List.length active, List.length keys))
  /\ exists metadata,
       prep_table lineage_str data samples tree rankdic namedic name_as_id
       = Return (datum_of data active <$> retained data active keys,
                 label_of namedic name_as_id <$> retained data active keys,
                 active, metadata).
Proof.
  intros Hkeys active. split.
  - by rewrite (write_table_sorted _ _ _ _ _ _ _ _ Hkeys).
  - eexists. by rewrite (prep_table_sorted _ _ _ _ _ _ _ _ Hkeys).
Qed.

(** C1. The claim does not hold of [write_table]: for a profile in which
    sample S1 has feature f1 only and sample S2 has feature f2 only, and
    with S1 as the only sample asked for, [write_table] prints a row for f2
    although its only count is 0, and counts it in the number of features
    that it returns, whereas [prep_table] has no row, label or metadata
    record for f2. Both keep the column of S1. *)
Theorem write_table_keeps_all_zero_row :
  write_table Ex.lineage Ex.profile_disjoint (Some ["S1"]) None None None
    false
  = (["#FeatureID" ++ TAB ++ "S1"; "f1" ++ TAB ++ "3"; "f2" ++ TAB ++ "0"],
     Return (1%nat, 2%nat))
  /\ prep_table Ex.lineage Ex.profile_disjoint (Some ["S1"]) None None None
       false
     = Return ([[3]], ["f1"], ["S1"], [[]]).
Proof. split; reflexivity. Qed.

(** C3. The claim does not hold: for a profile whose only sample stores a
    count of 0 for feature f2, the features of the rows that [write_table]
    prints are f1 and f2, whereas the labels that [prep_table] returns are
    f1 alone. *)
Theorem write_table_rows_differ_from_prep_table :
  write_table Ex.lineage Ex.profile_stored_zero None None None None false
  = (["#FeatureID" ++ TAB ++ "S1"; "f1" ++ TAB ++ "3"; "f2" ++ TAB ++ "0"],
     Return (1%nat, 2%nat))
  /\ prep_table Ex.lineage Ex.profile_stored_zero None None None None false
     = Return ([[3]], ["f1"], ["S1"], [[]]).
Proof. split; reflexivity. Qed.

(** C7. The claim does not hold of the metadata records of [prep_table]:
    with a tree and with an empty [dict] as rank dictionary, the only
    active metadata column is Lineage, and the record of feature f1 has
    Lineage as its only key, but bound to the empty rank dictionary instead
    of the lineage of f1, which is what [write_table] prints in its Lineage
    column. *)
Theorem prep_table_lineage_bound_to_rankdic :
  prep_table Ex.lineage Ex.profile_one None (Some Ex.tree_one) (Some ∅) None
    false
  = Return ([[3]], ["f1"], ["S1"], [[("Lineage", PyDict ∅)]])
  /\ write_table Ex.lineage Ex.profile_one None (Some Ex.tree_one) (Some ∅)
       None false
     = (["#FeatureID" ++ TAB ++ "S1" ++ TAB ++ "Lineage";
         "f1" ++ TAB ++ "3" ++ TAB ++ "root;f1"],
        Return (1%nat, 1%nat)).
Proof. split; reflexivity. Qed.

(** * Further properties *)

Import More.

(** ** Slices of strings *)

Section slices.
Open Scope string_scope.

Lemma str_take_drop (n : nat) (s : string) : take n s ++ drop n s = s.
Proof.
  revert s; induction n as [|n IH]; intros [|c s]; try reflexivity.
  cbn [take drop]. rewrite str_app_cons. by rewrite IH.
Qed.

Lemma str_take_app_length (a b : string) : take (String.length a) (a ++ b) = a.
Proof.
  induction a as [|c a IH]; [reflexivity|].
  rewrite str_app_cons. cbn [String.length take]. by rewrite IH.
Qed.

Lemma str_app_nil_r (a : string) : a ++ "" = a.
Proof. induction a as [|c a IH]; [done|]. by rewrite str_app_cons, IH. Qed.

Lemma str_app_inv_tail (a a' b : string) : a ++ b = a' ++ b -> a = a'.
Proof.
  intros H.
  assert (Hlen : String.length a = String.length a').
  { apply (f_equal String.length) in H. rewrite !str_length_app in H. lia. }
  rewrite <- (str_take_app_length a b), <- (str_take_app_length a' b).
  by rewrite H, Hlen.
Qed.

(** [s.endswith(p)] holds exactly when [s] is something followed by [p]. *)
Lemma endswith_app (s p : string) :
  endswith s p = true <-> exists a, s = a ++ p.
Proof.
  unfold endswith. rewrite bool_decide_eq_true. split.
  - intros H. exists (take (String.length s - String.length p) s).
    trans (take (String.length s - String.length p) s
           ++ drop (String.length s - String.length p) s).
    + symmetry. apply str_take_drop.
    + by rewrite H.
  - intros [a ->]. rewrite str_length_app.
    replace (String.length a + String.length p - String.length p)%nat
      with (String.length a) by lia.
    apply str_drop_app_length.
Qed.

Lemma drop_last_app (a p : string) :
  nonempty p = true -> drop_last (String.length p) (a ++ p) = a.
Proof.
  intros Hp. unfold drop_last.
  destruct (String.length p) as [|n] eqn:Hlen; [by destruct p|].
  rewrite str_length_app, Hlen.
  replace (String.length a + S n - S n)%nat with (String.length a) by lia.
  apply str_take_app_length.
Qed.

End slices.

(** ** File names *)

Section stems.

Variable splitext : string -> string * string.

Lemma file2stem_app (stem ext : string) :
  nonempty ext = true ->
  file2stem splitext (stem ++ ext) (Some ext) = Return stem.
Proof.
  intros Hext. unfold file2stem.
  assert (endswith (stem ++ ext) ext = true) as ->
    by (apply endswith_app; eauto).
  cbn [negb]. by rewrite drop_last_app.
Qed.

Lemma file2stem_inv (fname ext stem : string) :
  nonempty ext = true ->
  file2stem splitext fname (Some ext) = Return stem ->
  fname = (stem ++ ext)%string.
Proof.
  intros Hext. unfold file2stem.
  destruct (endswith fname ext) eqn:Hend; [|done].
  apply endswith_app in Hend as [a ->]. cbn [negb].
  rewrite drop_last_app by done. by intros [= ->].
Qed.

(** X1. With an extension that is given and not empty, [file2stem]
    returns a stem exactly for the file names that are this stem followed
    by the extension, so that taking the stem undoes adding the extension;
    for every other file name it raises [ValueError]. *)
Theorem file2stem_explicit_ext (fname ext : string) :
  nonempty ext = true ->
  (forall stem,
     file2stem splitext (stem ++ ext) (Some ext) = Return stem)
  /\ (forall stem,
        file2stem splitext fname (Some ext) = Return stem
        <-> fname = (stem ++ ext)%string)
  /\ ((forall stem, fname <> (stem ++ ext)%string)
      <-> file2stem splitext fname (Some ext)
          = Raise (ValueError
                     "Filepath and filename extension do not match.")).
Proof.
  intros Hext.
  pose proof (fun stem => file2stem_app stem ext Hext) as Hrt.
  split; [exact Hrt|]. split.
  - intros stem. split; [by apply file2stem_inv|intros ->; apply Hrt].
  - split.
    + intros Hno. unfold file2stem.
      destruct (endswith fname ext) eqn:Hend; [|done].
      apply endswith_app in Hend as [a ->]. by destruct (Hno a).
    + intros Hraise stem ->. by rewrite Hrt in Hraise.
Qed.

End stems.

Lemma file2stem_explicit_ext_witness :
  file2stem Posix.splitext ("S01.R1" ++ ".fastq") (Some ".fastq")
  = Return "S01.R1".
Proof.
  apply (proj1 (file2stem_explicit_ext Posix.splitext "x" ".fastq" eq_refl)).
Defined.

(** ** Directories *)

Section more_dir.

Variable splitext : string -> string * string.
Variable isfile : string -> bool.
Variable path_join : string -> string -> string.
Variable listdir : string -> list string.
Variable dir_ : string.
Variable ext : option string.
Variable ids : option (list string).

Local Abbreviation cand := (candidate splitext isfile path_join dir_ ext ids).
Local Abbreviation cands :=
  (candidates splitext isfile path_join dir_ ext ids).

Lemma elem_of_cands (names : list string) (id_ fname : string) :
  (id_, fname) ∈ cands names <-> fname ∈ names /\ cand fname = Some id_.
Proof.
  unfold candidates. rewrite list_elem_of_omap. split.
  - intros (f & Hf & Hc). destruct (cand f) as [i|] eqn:Hi; [|done].
    injection Hc as <- <-. done.
  - intros [Hf Hc]. exists fname. by rewrite Hc.
Qed.

Lemma cands_ids (names : list string) : (cands names).*1 = omap cand names.
Proof.
  induction names as [|f names IH]; [done|].
  unfold candidates in *. cbn [omap list_omap].
  destruct (cand f); cbn; by rewrite IH.
Qed.

(** What being recorded under an ID means for an entry. *)
Lemma cand_Some (fname id_ : string) :
  cand fname = Some id_
  <-> isfile (path_join dir_ fname) = true
      /\ file2stem splitext fname ext = Return id_
      /\ (truthy_list ids = true -> id_ ∈ default [] ids).
Proof.
  unfold candidate.
  destruct (isfile (path_join dir_ fname)); [|by split; [|intros [? _]]].
  destruct (file2stem splitext fname ext) as [i|e];
    [|by split; [|intros (_ & ? & _)]].
  destruct (truthy_list ids); cbn [andb].
  - case_bool_decide as Hin; cbn [negb]; split.
    + by intros [= ->].
    + by intros (_ & [= ->] & _).
    + done.
    + intros (_ & [= ->] & Hids). by destruct Hin; apply Hids.
  - split; [by intros [= ->] | by intros (_ & [= ->] & _)].
Qed.

(** X2. When [id2file_from_dir] returns, its map binds an ID to a file
    name exactly when the file name is an entry of the directory that is a
    regular file, has this ID as its stem, and has its ID in the list of
    IDs if a list that is not empty was passed. So nothing is recorded that
    is not there, and nothing that qualifies is left out. *)
Theorem id2file_from_dir_returns (m : gmap string string) :
  id2file_from_dir splitext isfile path_join listdir dir_ ext ids = Return m ->
  forall id_ fname,
    m !! id_ = Some fname
    <-> fname ∈ listdir dir_
        /\ isfile (path_join dir_ fname) = true
        /\ file2stem splitext fname ext = Return id_
        /\ (truthy_list ids = true -> id_ ∈ default [] ids).
Proof.
  unfold id2file_from_dir. intros Hm id_ fname.
  pose proof (dir_loop_outcome splitext isfile path_join dir_ ext ids
                (listdir dir_) ∅) as H.
  rewrite Hm in H. destruct H as (Hnd & _ & ->).
  rewrite (right_id_L ∅ (∪)), <- elem_of_list_to_map by done.
  by rewrite elem_of_cands, cand_Some.
Qed.

End more_dir.

Lemma id2file_from_dir_returns_witness :
  ({[ "s1" := "s1.tsv.gz"; "s2" := "s2.tsv" ]} : gmap string string)
    !! "s1" = Some "s1.tsv.gz"
  <-> "s1.tsv.gz" ∈ Ex.listing_12
      /\ true = true
      /\ file2stem Posix.splitext "s1.tsv.gz" None = Return "s1"
      /\ (truthy_list (Some ["s1"; "s2"]) = true
          -> "s1" ∈ default [] (Some ["s1"; "s2"])).
Proof.
  apply (id2file_from_dir_returns Posix.splitext (fun _ => true) Posix.join
           (fun _ => Ex.listing_12) "d" None (Some ["s1"; "s2"])).
  vm_compute. reflexivity.
Defined.

Section more_dir_ext.

Variable splitext : string -> string * string.
Variable isfile : string -> bool.
Variable path_join : string -> string -> string.
Variable listdir : string -> list string.
Variable dir_ : string.
Variable ids : option (list string).

(** X3. With an extension that is given and not empty, two different
    file names never have the same stem: on a directory listing without
    repeated names [id2file_from_dir] always returns, and every file name
    it records is its ID followed by the extension. *)
Theorem id2file_from_dir_explicit_ext (e : string) :
  nonempty e = true ->
  NoDup (listdir dir_) ->
  exists m,
    id2file_from_dir splitext isfile path_join listdir dir_ (Some e) ids
    = Return m
    /\ forall id_ fname, m !! id_ = Some fname -> fname = (id_ ++ e)%string.
Proof.
  intros He Hnd.
  assert (Hc : forall f i,
    candidate splitext isfile path_join dir_ (Some e) ids f = Some i ->
    f = (i ++ e)%string).
  { intros f i [_ [Hstem _]]%cand_Some.
    by apply (file2stem_inv splitext f e i He). }
  assert (Hids : NoDup (candidates splitext isfile path_join dir_ (Some e)
                          ids (listdir dir_)).*1).
  { rewrite cands_ids. induction Hnd as [|f names Hf Hnd IH]; [constructor|].
    cbn [omap list_omap].
    destruct (candidate splitext isfile path_join dir_ (Some e) ids f)
      as [i|] eqn:Hi; [|done].
    constructor; [|done]. intros (g & Hg & Hgi)%list_elem_of_omap.
    apply Hc in Hi, Hgi. apply Hf. by rewrite Hi, <- Hgi. }
  eexists. split.
  - unfold id2file_from_dir. by apply dir_loop_distinct.
  - intros id_ fname Hm.
    apply elem_of_list_to_map_2, elem_of_cands in Hm as [_ Hm]. eauto.
Qed.

(** X4. With the empty string as extension every file name has the empty
    stem ([fname[:-0]] is empty), so a directory with two regular files,
    whose ID the list of IDs does not exclude, is ambiguous:
    [id2file_from_dir] raises and names the empty ID. *)
Theorem id2file_from_dir_empty_ext (i j : nat) (f g : string) :
  i <> j ->
  listdir dir_ !! i = Some f -> listdir dir_ !! j = Some g ->
  isfile (path_join dir_ f) = true -> isfile (path_join dir_ g) = true ->
  (truthy_list ids = true -> "" ∈ default [] ids) ->
  (forall fname, file2stem splitext fname (Some "") = Return "")
  /\ id2file_from_dir splitext isfile path_join listdir dir_ (Some "") ids
     = Raise (ValueError (ambiguous_msg "")).
Proof.
  intros Hij Hi Hj Hf Hg Hids.
  assert (Hstem : forall fname, file2stem splitext fname (Some "") = Return "").
  { intros fname. unfold file2stem.
    assert (endswith fname "" = true) as ->; [|done].
    apply endswith_app. exists fname. by rewrite str_app_nil_r. }
  split; [exact Hstem|].
  assert (Hc : forall h, isfile (path_join dir_ h) = true ->
    candidate splitext isfile path_join dir_ (Some "") ids h = Some "").
  { intros h Hh. apply cand_Some. by rewrite Hstem. }
  pose proof (cands_collision splitext isfile path_join dir_ (Some "") ids
                _ _ _ _ _ _ Hij Hi Hj (Hc _ Hf) (Hc _ Hg)) as Hnd.
  destruct (dir_loop_collision splitext isfile path_join dir_ (Some "") ids
              _ Hnd) as (id_ & l1 & l2 & Hraise & Hcs & _ & Hin).
  unfold id2file_from_dir. rewrite Hraise. do 3 f_equal.
  assert (Hmem : id_ ∈ (candidates splitext isfile path_join dir_ (Some "")
                          ids (listdir dir_)).*1).
  { rewrite Hcs. apply elem_of_app. right. by left. }
  apply list_elem_of_fmap in Hmem as ([i' h] & -> & Hmem).
  apply elem_of_cands in Hmem as [_ [_ [Hs _]]%cand_Some].
  rewrite Hstem in Hs. by injection Hs as <-.
Qed.

End more_dir_ext.

Lemma id2file_from_dir_explicit_ext_witness :
  exists m,
    id2file_from_dir Posix.splitext (fun _ => true) Posix.join
      (fun _ => Ex.listing_ab) "d" (Some ".txt") None = Return m
    /\ forall id_ fname, m !! id_ = Some fname -> fname = (id_ ++ ".txt")%string.
Proof.
  apply (id2file_from_dir_explicit_ext Posix.splitext (fun _ => true)
           Posix.join (fun _ => Ex.listing_ab) "d" None ".txt" eq_refl).
  apply (bool_decide_unpack _). vm_compute. exact I.
Defined.

Lemma id2file_from_dir_empty_ext_witness :
  id2file_from_dir Posix.splitext (fun _ => true) Posix.join
    (fun _ => Ex.listing_12) "d" (Some "") None
  = Raise (ValueError (ambiguous_msg "")).
Proof.
  apply (id2file_from_dir_empty_ext Posix.splitext (fun _ => true) Posix.join
           (fun _ => Ex.listing_12) "d" None 0%nat 1%nat "s1.tsv.gz" "s2.tsv");
    try reflexivity; [lia | discriminate].
Defined.

(** ** ID lists *)

Lemma read_ids_body_id (line : string) (res : list string) :
  read_ids_body line res
  = Next (res ++ from_option (fun i => [i]) [] (id_of_line line))%list.
Proof.
  unfold read_ids_body, id_of_line, no_id.
  destruct (startswith line "#"); cbn; [by rewrite app_nil_r|].
  destruct (nonempty (partition_head TAB (strip line))); cbn;
    by rewrite ?app_nil_r.
Qed.

Lemma read_ids_iterate (fh : list string) (res : list string) :
  iterate read_ids_body fh res = Next (res ++ ids_of fh)%list.
Proof.
  revert res; induction fh as [|line fh IH]; intros res; cbn [iterate].
  - by rewrite app_nil_r.
  - rewrite read_ids_body_id, IH, <- app_assoc. unfold ids_of.
    cbn [omap list_omap]. by destruct (id_of_line line).
Qed.

(** A list has fewer distinct elements than elements exactly when an
    element is repeated. *)
Lemma size_list_to_set_le (l : list string) :
  (size (list_to_set l : gset string) <= List.length l)%nat
  /\ (size (list_to_set l : gset string) = List.length l -> NoDup l).
Proof.
  induction l as [|x l [IHle IHnd]]; [split; [done|constructor]|].
  cbn [list_to_set List.length].
  destruct (decide (x ∈ l)) as [Hx|Hx].
  - assert ({[x]} ∪ list_to_set l = (list_to_set l : gset string)) as ->.
    { apply subseteq_union_1_L, singleton_subseteq_l.
      by apply elem_of_list_to_set. }
    split; lia.
  - rewrite size_union
      by (apply disjoint_singleton_l; by rewrite elem_of_list_to_set).
    rewrite size_singleton.
    split; [lia|]. intros Hs. constructor; [done|]. apply IHnd. lia.
Qed.

Lemma has_duplicates (l : list string) :
  (size (list_to_set l : gset string) <? List.length l)%nat
  = negb (bool_decide (NoDup l)).
Proof.
  destruct (size_list_to_set_le l) as [Hle Hnd].
  case_bool_decide as Hl; cbn [negb].
  - apply Nat.ltb_ge. by rewrite size_list_to_set.
  - apply Nat.ltb_lt. destruct (decide (size (list_to_set l : gset string)
                                        = List.length l)); [tauto|lia].
Qed.

(** X5. The three outcomes of [read_ids] on a present input: when the
    lines contribute no ID it raises 'No ID is read.'; when an ID comes up
    twice it raises 'Duplicate IDs found.'; otherwise it returns the IDs of
    the lines, one for each line that contributes one, in the order of the
    lines. *)
Theorem read_ids_outcome (fh : list string) :
  read_ids (Some fh)
  = match ids_of fh with
    | [] => Raise (ValueError "No ID is read.")
    | _ :: _ =>
        if bool_decide (NoDup (ids_of fh))
        then Return (Some (ids_of fh))
        else Raise (ValueError "Duplicate IDs found.")
    end.
Proof.
  unfold read_ids. rewrite for_loop_iterate, read_ids_iterate.
  cbn [app]. unfold read_ids_finish.
  destruct (ids_of fh) as [|i l] eqn:Hids; [done|].
  rewrite has_duplicates. by case_bool_decide.
Qed.

Section id_shape.
Open Scope string_scope.

Lemma lstrip_head (s : string) (c : ascii) (r : string) :
  lstrip s = String c r -> isspace c = false.
Proof.
  induction s as [|d s IH]; [done|]. cbn [lstrip].
  destruct (isspace d) eqn:Hd; [done|]. by intros [= <- _].
Qed.

Lemma rstrip_head (s : string) (c : ascii) (r : string) :
  rstrip s = String c r -> exists r', s = String c r'.
Proof.
  destruct s as [|d s]; [done|]. cbn [rstrip].
  destruct (rstrip s); [destruct (isspace d)|]; intros [= <- _]; eauto.
Qed.

Lemma partition_head_sep_free (sep s : string) :
  nonempty sep = true -> sep_free sep (partition_head sep s).
Proof.
  intros Hsep. unfold sep_free, partition_head.
  destruct (find sep s) as [[a b]|] eqn:Hf; [|done].
  pose proof (find_Some _ _ _ _ Hf) as ->. by eapply find_before.
Qed.

Lemma partition_head_head (sep s : string) (c : ascii) (r : string) :
  partition_head sep s = String c r -> exists r', s = String c r'.
Proof.
  unfold partition_head.
  destruct (find sep s) as [[a b]|] eqn:Hf; [|eauto].
  pose proof (find_Some _ _ _ _ Hf) as ->. intros ->.
  rewrite str_app_cons. eauto.
Qed.

End id_shape.

(** X6. What [read_ids] returns for a present input is a list that is not
    empty and has no ID twice. Each of its IDs comes from a line that does
    not start with [#]; it is not empty, has no tab in it and does not
    start with white space. *)
Theorem read_ids_returns (fh res : list string) :
  read_ids (Some fh) = Return (Some res) ->
  res <> [] /\ NoDup res
  /\ Forall (fun id_ =>
               nonempty id_ = true
               /\ sep_free TAB id_
               /\ (forall c r, id_ = String c r -> isspace c = false)
               /\ exists line,
                    line ∈ fh /\ startswith line "#" = false
                    /\ id_ = partition_head TAB (strip line)) res.
Proof.
  unfold read_ids. rewrite for_loop_iterate, read_ids_iterate.
  cbn [app]. unfold read_ids_finish.
  destruct (ids_of fh) as [|i l] eqn:Hids; [done|].
  rewrite has_duplicates.
  case_bool_decide as Hnd; [|done]. intros [= <-].
  split; [done|]. split; [done|].
  rewrite <- Hids. apply Forall_forall. intros id_ Hid.
  apply list_elem_of_omap in Hid as (line & Hline & Hid).
  unfold id_of_line, no_id in Hid.
  destruct (startswith line "#") eqn:Hc; [done|].
  destruct (nonempty (partition_head TAB (strip line))) eqn:Hne; [|done].
  injection Hid as <-.
  split; [done|]. split; [by apply partition_head_sep_free|]. split; [|eauto].
  intros c r Hcr.
  apply partition_head_head in Hcr as [r1 Hcr].
  apply rstrip_head in Hcr as [r2 Hcr].
  by apply lstrip_head in Hcr.
Qed.

Lemma read_ids_returns_witness :
  read_ids (Some [ "#ids" ++ NL; " a" ++ TAB ++ "x" ++ NL; NL;
                   "b c  " ++ NL ])
  = Return (Some ["a"; "b c"])
  /\ ["a"; "b c"] <> [] /\ NoDup ["a"; "b c"].
Proof.
  split; [reflexivity|].
  pose proof (read_ids_returns
                [ "#ids" ++ NL; " a" ++ TAB ++ "x" ++ NL; NL; "b c  " ++ NL ]
                ["a"; "b c"] eq_refl) as (H1 & H2 & _).
  exact (conj H1 H2).
Defined.

(** ** Mapping files *)

Section more_map.

Variable isfile : string -> bool.
Variable path_join : string -> string -> string.
Variable dirname : string -> string.
Variable read_lines : string -> list string.

Local Abbreviation body := (id2file_from_map_body isfile path_join).
Local Abbreviation resolve := (resolve isfile path_join).

(** A line is in order when it is skipped or stands for a pair. *)
Local Abbreviation in_order fdir line :=
  (skipped line = true \/ is_Some (resolve fdir line)).

Lemma resolve_isfile (fdir line : string) (p : string * string) :
  resolve fdir line = Some p -> skipped line = false /\ isfile p.2 = true.
Proof.
  unfold More.resolve. destruct (skipped line); [done|].
  destruct (split TAB (rstrip line)) as [[|id_ [|file_ [|? ?]]]|e];
    try done.
  destruct (isfile file_) eqn:Hf; [by intros [= <-]|].
  destruct (isfile (path_join fdir file_)) eqn:Hf'; [by intros [= <-]|done].
Qed.

(** One iteration of the loop: it goes on exactly for the lines that are
    in order, and adds the pair of the line if there is one; for any other
    line it returns [None] or raises. *)
Lemma map_body_cases (fdir line : string) (res : list (string * string)) :
  (in_order fdir line
   /\ body fdir line res
      = Next (res ++ from_option (fun p => [p]) [] (resolve fdir line))%list)
  \/ (~ in_order fdir line
      /\ (body fdir line res = Done (Return None)
          \/ exists msg, body fdir line res = Done (Raise (ValueError msg)))).
Proof.
  unfold id2file_from_map_body, More.resolve, skipped.
  destruct (negb (nonempty (rstrip line)) || startswith (rstrip line) "#");
    [left; split; [by left | by rewrite app_nil_r]|].
  destruct (split TAB (rstrip line)) as [[|id_ [|file_ [|? ?]]]|e];
    try (right; split; [by intros [?|[? ?]] | by left]).
  destruct (isfile file_); [left; split; [right; eauto | done]|].
  destruct (isfile (path_join fdir file_));
    [left; split; [right; eauto | done]|].
  right. split; [by intros [?|[? ?]]|].
  destruct res; [by left | right; eauto].
Qed.

Lemma map_loop_in_order (fdir : string) (lines : list string)
    (res : list (string * string)) :
  Forall (fun line => in_order fdir line) lines ->
  iterate (body fdir) lines res = Next (res ++ omap (resolve fdir) lines)%list.
Proof.
  intros Hall. revert res.
  induction Hall as [|line lines Hline _ IH]; intros res; cbn [iterate].
  - by rewrite app_nil_r.
  - destruct (map_body_cases fdir line res) as [[_ ->]|[Hno _]]; [|done].
    rewrite IH, <- app_assoc. cbn [omap list_omap].
    by destruct (resolve fdir line).
Qed.

Lemma map_loop_returns (fdir : string) (lines : list string)
    (res r : list (string * string)) :
  for_loop (body fdir) id2file_from_map_finish lines res = Return (Some r) ->
  Forall (fun line => in_order fdir line) lines
  /\ r = (res ++ omap (resolve fdir) lines)%list.
Proof.
  revert res; induction lines as [|line lines IH]; intros res;
    cbn [for_loop].
  - unfold id2file_from_map_finish. destruct res; [done|].
    intros [= <-]. split; [constructor | by rewrite app_nil_r].
  - destruct (map_body_cases fdir line res)
      as [[Hline ->]|[_ [->|[msg ->]]]]; [|done..].
    intros [Hall ->]%IH. split; [by constructor|].
    rewrite <- app_assoc. cbn [omap list_omap].
    by destruct (resolve fdir line).
Qed.

(** X7. On a mapping file in which every line is skipped or has two
    columns of which the second is the path of a file, as given or next to
    the mapping file, [id2file_from_map] returns the pairs of all the lines
    in the order of the file, each with the path under which its file was
    found; it returns [None] when there is no such pair at all. *)
Theorem id2file_from_map_in_order (fp : string) :
  Forall (fun line => in_order (dirname fp) line) (read_lines fp) ->
  id2file_from_map isfile path_join dirname read_lines fp
  = Return (or_none (omap (resolve (dirname fp)) (read_lines fp))).
Proof.
  intros Hall. unfold id2file_from_map, openzip.
  rewrite for_loop_iterate, map_loop_in_order by done. cbn [app].
  unfold id2file_from_map_finish, or_none.
  by destruct (omap _ _).
Qed.

(** X8. When [id2file_from_map] returns a list, the list is not empty,
    every line of the file was skipped or stood for a pair, the list has
    the pairs of the lines in the order of the file, and every path in it
    is the path of a file. *)
Theorem id2file_from_map_returns (fp : string)
    (res : list (string * string)) :
  id2file_from_map isfile path_join dirname read_lines fp
  = Return (Some res) ->
  res <> []
  /\ Forall (fun line => in_order (dirname fp) line) (read_lines fp)
  /\ res = omap (resolve (dirname fp)) (read_lines fp)
  /\ Forall (fun p => isfile p.2 = true) res.
Proof.
  unfold id2file_from_map, openzip. intros Hres.
  pose proof (map_loop_returns _ _ _ _ Hres) as [Hall Hr]. cbn [app] in Hr.
  split; [|split; [done|split; [done|]]].
  - intros ->. rewrite for_loop_iterate, map_loop_in_order in Hres by done.
    cbn [app] in Hres. by rewrite <- Hr in Hres.
  - subst res. apply Forall_forall. intros p Hp.
    apply list_elem_of_omap in Hp as (line & _ & Hp).
    by apply resolve_isfile in Hp as [_ Hp].
Qed.

(** X9. [id2file_from_map] does not look at the IDs: when the lines of a
    mapping file are in order, and so are the lines of another one in the
    same directory, the file made of the lines of both gives the pairs of
    the first followed by the pairs of the second, whether or not an ID
    comes up in both. *)
Theorem id2file_from_map_app (fp fp1 fp2 : string)
    (res1 res2 : list (string * string)) :
  dirname fp1 = dirname fp -> dirname fp2 = dirname fp ->
  read_lines fp = (read_lines fp1 ++ read_lines fp2)%list ->
  id2file_from_map isfile path_join dirname read_lines fp1
  = Return (Some res1) ->
  id2file_from_map isfile path_join dirname read_lines fp2
  = Return (Some res2) ->
  id2file_from_map isfile path_join dirname read_lines fp
  = Return (Some (res1 ++ res2)%list).
Proof.
  unfold id2file_from_map, openzip. intros Hd1 Hd2 Hlines H1 H2.
  rewrite Hd1 in H1. rewrite Hd2 in H2.
  assert (Hne : res1 <> []).
  { intros ->. pose proof (map_loop_returns _ _ _ _ H1) as [Hall Hr].
    cbn [app] in Hr.
    rewrite for_loop_iterate, map_loop_in_order in H1 by done.
    cbn [app] in H1. by rewrite <- Hr in H1. }
  apply map_loop_returns in H1 as [Hall1 ->].
  apply map_loop_returns in H2 as [Hall2 ->]. cbn [app] in *.
  rewrite Hlines, for_loop_iterate, map_loop_in_order
    by (by apply Forall_app).
  cbn [app]. rewrite omap_app. unfold id2file_from_map_finish.
  destruct (omap _ (read_lines fp1)); done.
Qed.

End more_map.

Lemma id2file_from_map_in_order_witness :
  id2file_from_map Ex.isfile Posix.join Posix.dirname
    (fun _ => map_in_order) "/m/map.txt"
  = Return (Some [("a", "/d/x.txt"); ("b", "/m/y.txt")]).
Proof.
  apply (id2file_from_map_in_order Ex.isfile Posix.join Posix.dirname
           (fun _ => map_in_order) "/m/map.txt").
  apply (bool_decide_unpack _). vm_compute. exact I.
Defined.

Lemma id2file_from_map_returns_witness :
  [("a", "/d/x.txt"); ("b", "/m/y.txt")] <> []
  /\ Forall (fun p : string * string => Ex.isfile p.2 = true)
       [("a", "/d/x.txt"); ("b", "/m/y.txt")].
Proof.
  pose proof (id2file_from_map_returns Ex.isfile Posix.join Posix.dirname
                (fun _ => map_in_order) "/m/map.txt"
                [("a", "/d/x.txt"); ("b", "/m/y.txt")] eq_refl)
    as (H1 & _ & _ & H2).
  exact (conj H1 H2).
Defined.

Lemma id2file_from_map_app_witness :
  id2file_from_map Ex.isfile Posix.join Posix.dirname
    (fun fp => if bool_decide (fp = "/m/both.txt")
               then (map_in_order ++ map_in_order)%list else map_in_order)
    "/m/both.txt"
  = Return (Some [("a", "/d/x.txt"); ("b", "/m/y.txt");
                  ("a", "/d/x.txt"); ("b", "/m/y.txt")]).
Proof.
  apply (id2file_from_map_app Ex.isfile Posix.join Posix.dirname
           (fun fp => if bool_decide (fp = "/m/both.txt")
                      then (map_in_order ++ map_in_order)%list
                      else map_in_order)
           "/m/both.txt" "/m/map.txt" "/m/map.txt"
           [("a", "/d/x.txt"); ("b", "/m/y.txt")]
           [("a", "/d/x.txt"); ("b", "/m/y.txt")]); reflexivity.
Defined.

(** ** Cutting and joining *)

Section cut_join.
Open Scope string_scope.

Variable sep : string.
Hypothesis sep_nonempty : nonempty sep = true.

Lemma join_cons (x y : string) (l : list string) :
  join sep (x :: y :: l) = x ++ sep ++ join sep (y :: l).
Proof. reflexivity. Qed.

(** Joining the pieces of [split] with the separator gives the string
    back, and no piece has the separator in it. *)
Lemma split_join_sep_free (n : nat) (s : string) (l : list string) :
  (String.length s <= n)%nat ->
  split sep s = Return l ->
  join sep l = s /\ Forall (sep_free sep) l.
Proof.
  revert s l; induction n as [|n IH]; intros s l Hn;
    rewrite (split_eq sep s sep_nonempty);
    destruct (find sep s) as [[a b]|] eqn:Hf;
    try (intros [= <-]; split; [done | by repeat constructor]).
  - apply (find_length _ _ _ _ sep_nonempty) in Hf. lia.
  - pose proof (find_length _ _ _ _ sep_nonempty Hf) as Hb.
    destruct (split sep b) as [l'|e] eqn:Hsplit; [|done].
    intros [= <-]. destruct (IH b l') as [Hjoin Hfree]; [lia|done|].
    pose proof (find_Some _ _ _ _ Hf) as ->. split.
    + destruct l' as [|y l']; [by apply split_nonempty in Hsplit|].
      by rewrite join_cons, Hjoin.
    + constructor; [|done]. by apply (find_before sep a b).
Qed.

End cut_join.

Lemma rstrip_newline (s : string) : rstrip (s ++ NL) = rstrip s.
Proof.
  induction s as [|c s IH]; [reflexivity|].
  rewrite str_app_cons. cbn [rstrip]. by rewrite IH.
Qed.

Section cut_join_char.
Open Scope string_scope.

Variable c : ascii.

Lemma str_prefix_nil (s : string) : String.prefix "" s = true.
Proof. by destruct s. Qed.

Lemma find_char (a b : string) :
  sep_free (String c "") a ->
  find (String c "") (a ++ String c b) = Some (a, b).
Proof.
  unfold sep_free. induction a as [|d a IH].
  - intros _. rewrite str_app_nil_l, find_eq, str_prefix_cons.
    by rewrite bool_decide_true, str_prefix_nil.
  - rewrite str_app_cons, !(find_eq _ (String d _)), !str_prefix_cons.
    rewrite !str_prefix_nil.
    destruct (bool_decide (c = d)); cbn [andb]; [done|].
    destruct (find (String c "") a) as [[x y]|]; [done|].
    intros _. by rewrite IH.
Qed.

(** With a separator of one character, cutting undoes joining pieces that
    do not have the separator in them. *)
Lemma split_join_char (l : list string) :
  l <> [] -> Forall (sep_free (String c "")) l ->
  split (String c "") (join (String c "") l) = Return l.
Proof.
  intros Hl Hfree. induction Hfree as [|x l Hx Hfree IH]; [done|].
  rewrite (split_eq (String c "") _ eq_refl). destruct l as [|y l].
  - cbn [join String.concat]. by rewrite Hx.
  - rewrite join_cons. replace (String c "" ++ join (String c "") (y :: l))
      with (String c (join (String c "") (y :: l))) by reflexivity.
    rewrite find_char by done. by rewrite IH.
Qed.

End cut_join_char.

(** ** Mapping records, again *)

Section more_records.

Variable feat_n_cnt : string -> string * Z.
Variable sep : string.
Hypothesis sep_nonempty : nonempty sep = true.

Local Abbreviation parse := (read_map_line feat_n_cnt sep).

(** X10. Without counts, a pair that [read_map] yields for a line lets
    one rebuild the line: in multi mode the key and the values, joined with
    the separator, are the line without its trailing white space, and there
    is at least one value; in the default mode the key, the separator and
    the value are that line; in single mode they are the start of it. The
    key and the values never have the separator in them. *)
Theorem read_map_line_rebuild (line key : string) :
  (forall vs,
     parse (Some true) false line = Return (Some (key, Values vs)) ->
     vs <> [] /\ join sep (key :: vs) = rstrip line
     /\ sep_free sep key /\ Forall (sep_free sep) vs)
  /\ (forall v,
        parse None false line = Return (Some (key, Value v)) ->
        join sep [key; v] = rstrip line
        /\ sep_free sep key /\ sep_free sep v)
  /\ (forall v,
        parse (Some false) false line = Return (Some (key, Value v)) ->
        (exists more, join sep (key :: v :: more) = rstrip line)
        /\ sep_free sep key /\ sep_free sep v).
Proof.
  unfold read_map_line.
  destruct (split sep (rstrip line)) as [row|e] eqn:Hrow; [|done].
  destruct (split_join_sep_free sep sep_nonempty _ _ _ (le_n _) Hrow)
    as [Hjoin Hfree].
  cbn [bind].
  destruct row as [|k [|v0 more]]; [done|done|].
  apply Forall_cons in Hfree as [Hk Hfree].
  split; [|split].
  - cbn. intros vs [= <- <-]. done.
  - intros v. destruct more as [|x more]; cbn; [|done].
    intros [= <- <-]. by apply Forall_cons in Hfree as [Hv _].
  - intros v. destruct more as [|x more]; cbn; intros [= <- <-];
      apply Forall_cons in Hfree as [Hv _]; (split; [|done]).
    + by exists [].
    + by exists (x :: more).
Qed.

End more_records.

Lemma read_map_line_rebuild_witness :
  join TAB ["k"; "v"; "w"] = rstrip Ex.record_three.
Proof.
  apply (proj1 (read_map_line_rebuild Ex.no_count TAB eq_refl
                  Ex.record_three "k") ["v"; "w"] eq_refl).
Defined.

(** ** Read maps, written and read again *)

Section readmap_round_trip.

Variable feat_n_cnt : string -> string * Z.
Variable namedic : option dict.

Lemma write_readmap_row_read (read : string) (taxa : target) :
  exists entries, write_readmap_row namedic read taxa = read :: entries.
Proof.
  unfold write_readmap_row. destruct taxa as [taxon|taxa]; [|eauto].
  destruct (get_name namedic taxon); eauto.
Qed.

(** X11. What [write_readmap] writes can be read by [read_map] in multi
    mode: when, for every read, the row has an entry, its cells have no
    tab in them and its line does not end with white space, reading the
    lines that were written yields, for each read in the order of the read
    map, the read with its entries as they were written. *)
Theorem write_readmap_read_map (rmap : list (string * target)) :
  Forall (rereadable namedic) rmap ->
  read_map feat_n_cnt TAB (Some true) false
    ((fun line => (line ++ NL)%string) <$> write_readmap rmap namedic)
  = ((fun x : string * target =>
        (x.1, Values (tail (write_readmap_row namedic x.1 x.2)))) <$> rmap,
     None).
Proof.
  induction 1 as [|[read taxa] rmap (Hlen & Hfree & Hstrip) _ IH]; [done|].
  cbn [fmap list_fmap write_readmap read_map fst snd] in *.
  fold (write_readmap rmap namedic). rewrite IH.
  unfold read_map_line. rewrite rstrip_newline, Hstrip.
  destruct (write_readmap_row_read read taxa) as [entries Hrow].
  rewrite Hrow in *. unfold TAB in *.
  rewrite split_join_char by done. cbn [bind List.length] in *.
  destruct entries as [|e entries]; [cbn in Hlen; lia|]. done.
Qed.

End readmap_round_trip.

Lemma write_readmap_read_map_witness :
  read_map Ex.no_count TAB (Some true) false
    ((fun line => (line ++ NL)%string)
     <$> write_readmap rmap_two (Some Ex.names_one))
  = ([("r1", Values ["b:5"; "c:5"; "a:2"]); ("r2", Values ["b"])], None).
Proof.
  apply (write_readmap_read_map Ex.no_count (Some Ex.names_one) rmap_two).
  unfold rmap_two, rereadable.
  repeat (apply Forall_cons; split; [vm_compute; repeat constructor|]).
  apply Forall_nil. exact I.
Defined.

(** X12. A name dictionary changes what [write_readmap] writes only for
    the taxa that it has: when it has none of the taxa that the read map
    mentions, in particular when it is empty, the lines are those written
    without a name dictionary. *)
Theorem write_readmap_names_absent (rmap : list (string * target))
    (namedic : dict) :
  Forall (fun x : string * target =>
            Forall (fun taxon => namedic !! taxon = None) (taxa_of x.2))
    rmap ->
  write_readmap rmap (Some namedic) = write_readmap rmap None.
Proof.
  assert (Hname : forall taxon,
    namedic !! taxon = None -> get_name (Some namedic) taxon = None).
  { intros taxon Hn. unfold get_name. cbn [default].
    by destruct (truthy (Some namedic)). }
  induction 1 as [|[read taxa] rmap Hx _ IH]; [done|].
  cbn [fmap list_fmap write_readmap]. fold (write_readmap rmap (Some namedic)).
  fold (write_readmap rmap None). rewrite IH. f_equal. f_equal.
  unfold write_readmap_row.
  destruct taxa as [taxon|taxa]; unfold taxa_of in Hx; cbn [snd] in Hx.
  - apply Forall_inv in Hx. by rewrite (Hname _ Hx).
  - f_equal. apply list_fmap_ext. intros i [taxon count] Hi. cbn.
    rewrite Hname; [done|].
    rewrite Forall_forall in Hx. apply Hx.
    apply list_elem_of_fmap. exists (taxon, count). split; [done|].
    apply list_elem_of_lookup_2 in Hi. unfold sorted_items in Hi.
    by rewrite merge_sort_Permutation in Hi.
Qed.

Lemma write_readmap_names_absent_witness :
  write_readmap rmap_two (Some Ex.ranks_one) = write_readmap rmap_two None.
Proof.
  apply (write_readmap_names_absent rmap_two Ex.ranks_one).
  apply (bool_decide_unpack _). vm_compute. exact I.
Defined.

(** ** Paths *)

Section more_paths.
Open Scope string_scope.

Lemma rfind_app (c : ascii) (d f : string) :
  Posix.rfind c f = None ->
  Posix.rfind c (d ++ String c f) = Some (String.length d).
Proof.
  intros Hf. induction d as [|x d IH].
  - rewrite str_app_nil_l. cbn [Posix.rfind]. rewrite Hf.
    by rewrite Ascii.eqb_refl.
  - rewrite str_app_cons. cbn [Posix.rfind]. by rewrite IH.
Qed.

(** X13. On POSIX paths, the stem of a path is the stem of its last
    component, whatever the directory in front of it: [path2stem] of a
    directory, a slash and a file name without slash is [file2stem] of the
    file name, with or without an extension given. *)
Theorem path2stem_last_component
    (splitext : string -> string * string) (d fname : string)
    (ext : option string) :
  Posix.rfind "/" fname = None ->
  path2stem splitext basename (d ++ "/" ++ fname) ext
  = file2stem splitext fname ext.
Proof.
  intros Hf. unfold path2stem. f_equal. unfold basename.
  replace (d ++ "/" ++ fname) with (d ++ String "/" fname) by reflexivity.
  rewrite rfind_app by done.
  replace (d ++ String "/" fname) with ((d ++ "/") ++ fname)
    by (by rewrite str_app_assoc).
  replace (S (String.length d)) with (String.length (d ++ "/"))
    by (rewrite str_length_app; cbn; lia).
  apply str_drop_app_length.
Qed.

End more_paths.

Lemma path2stem_last_component_witness :
  path2stem Posix.splitext basename "/data/run1/sample.tsv.gz" None
  = file2stem Posix.splitext "sample.tsv.gz" None.
Proof.
  apply (path2stem_last_component Posix.splitext "/data/run1"
           "sample.tsv.gz" None eq_refl).
Defined.

(** ** Profile tables, again *)

Lemma sorted_keys_uniform (data : profile) :
  uniform data -> sorted_keys (elements (allkeys data)) = Return (keys_of data).
Proof. unfold uniform, sorted_keys, keys_of. by intros ->. Qed.

Lemma keys_of_Permutation (data : profile) :
  keys_of data ≡ₚ elements (allkeys data).
Proof. apply merge_sort_Permutation. Qed.

Lemma elem_of_keys_of (data : profile) (key : fkey) :
  key ∈ keys_of data
  <-> exists sample m, data !! sample = Some m /\ is_Some (m !! key).
Proof.
  by rewrite keys_of_Permutation, elem_of_elements, elem_of_allkeys.
Qed.

Lemma keys_of_NoDup (data : profile) : NoDup (keys_of data).
Proof. rewrite keys_of_Permutation. apply NoDup_elements. Qed.

Lemma keys_of_length (data : profile) :
  List.length (keys_of data) = size (allkeys data).
Proof. by rewrite keys_of_Permutation. Qed.

Section more_tables.

Variable lineage_str : string -> dict -> option dict -> string.
Variable data : profile.
Variable samples : option (list string).
Variables tree rankdic namedic : option dict.
Variable name_as_id : bool.

Local Abbreviation active := (write_table_samples data samples).
Local Abbreviation header :=
  (write_table_header active tree rankdic namedic name_as_id).
Local Abbreviation row key :=
  (row_of lineage_str data active tree rankdic namedic name_as_id key).
Local Abbreviation chosen := (prep_table_samples data samples).
Local Abbreviation metacols :=
  (prep_table_metacols tree rankdic (prep_table_namecol namedic name_as_id)).

Lemma meta_of_names (key : fkey) :
  (meta_of lineage_str tree rankdic namedic name_as_id key).*1 = metacols.
Proof.
  unfold meta_of, prep_table_metacols, prep_table_namecol.
  by destruct (truthy namedic && negb name_as_id), (truthy rankdic),
    (truthy tree).
Qed.

Lemma retained_more (a1 a2 : list string) (keys : list fkey) :
  (forall x, x ∈ a1 -> x ∈ a2) ->
  retained data a1 keys `sublist_of` retained data a2 keys.
Proof.
  intros Hsub. unfold retained.
  induction keys as [|key keys IH]; [done|]. rewrite !filter_cons.
  assert (Himp : any (datum_of data a1 key) = true ->
                 any (datum_of data a2 key) = true).
  { unfold any, datum_of. rewrite !existsb_exists.
    intros (n & Hn & Hnz). exists n. split; [|done].
    apply list_elem_of_In, list_elem_of_fmap in Hn as (x & -> & Hx).
    apply list_elem_of_In, list_elem_of_fmap. eauto. }
  destruct (decide (any (datum_of data a1 key) = true)) as [H1|H1].
  - rewrite decide_True by auto. by constructor.
  - destruct (decide (any (datum_of data a2 key) = true));
      [by constructor|done].
Qed.

(** X14. On a profile whose feature keys are all plain or all
    stratified, [write_table] prints the header and then one row for each
    feature key that some sample of the profile has, whether the sample is
    among the samples of the table or not, each key once and in ascending
    order; it returns the number of samples of the table and the number of
    these keys. *)
Theorem write_table_rows :
  uniform data ->
  write_table lineage_str data samples tree rankdic namedic name_as_id
  = (join TAB header :: ((fun key => join TAB (row key)) <$> keys_of data),
     Return (List.length active, size (allkeys data)))
  /\ StronglySorted fkey_le (keys_of data)
  /\ NoDup (keys_of data)
  /\ forall key,
       key ∈ keys_of data
       <-> exists sample m, data !! sample = Some m /\ is_Some (m !! key).
Proof.
  intros Hu. split; [|split; [|split]].
  - rewrite (write_table_sorted _ _ _ _ _ _ _ _ (sorted_keys_uniform _ Hu)).
    by rewrite keys_of_length.
  - apply (StronglySorted_merge_sort _).
  - apply keys_of_NoDup.
  - apply elem_of_keys_of.
Qed.

(** X15. The text table is rectangular: for every feature key, the row
    that [write_table] builds has as many cells as the header, which is
    [#FeatureID], the samples and the names of the active metadata columns;
    the cells are the label, the decimal counts of the key in the samples,
    in their order, and the values of the active metadata columns. Building
    a row never raises. *)
Theorem write_table_rectangular (key : fkey) :
  header
  = ("#FeatureID" :: active
     ++ (meta_of lineage_str tree rankdic namedic name_as_id key).*1)%list
  /\ exists cells,
       write_table_row lineage_str data active tree rankdic namedic
         name_as_id key = Return cells
       /\ cells
          = (label_of namedic name_as_id key
             :: ((fun sample => str (count_of data sample key)) <$> active)
             ++ (meta_of lineage_str tree rankdic namedic name_as_id
                   key).*2)%list
       /\ List.length cells = List.length header.
Proof.
  assert (Hh := write_table_header_columns lineage_str tree rankdic namedic
                  name_as_id active key).
  split; [done|]. eexists. split; [|split].
  - apply write_table_row_returns, table_samples_in_data.
  - unfold row_of, datum_of. by rewrite <- list_fmap_compose.
  - rewrite Hh. unfold row_of, datum_of. cbn [app List.length].
    by rewrite !length_app, !length_fmap.
Qed.

(** X16. On a profile whose feature keys are all plain or all
    stratified, [prep_table] returns four lists that go together: a row of
    counts, a label and a metadata record for each feature key that has a
    count other than 0 in a sample of the table, in ascending order of the
    keys, and the samples of the table. Every row has one count for each
    sample, not all 0, and every metadata record has the names of the
    active metadata columns as its keys. *)
Theorem prep_table_rows :
  uniform data ->
  exists dat features metadata,
    prep_table lineage_str data samples tree rankdic namedic name_as_id
    = Return (dat, features, chosen, metadata)
    /\ dat = datum_of data chosen <$> retained data chosen (keys_of data)
    /\ features
       = label_of namedic name_as_id <$> retained data chosen (keys_of data)
    /\ List.length metadata = List.length dat
    /\ Forall (fun datum =>
                 List.length datum = List.length chosen
                 /\ exists n, n ∈ datum /\ n <> 0) dat
    /\ Forall (fun record : list (string * pyval) => record.*1 = metacols)
         metadata
    /\ retained data chosen (keys_of data) `sublist_of` keys_of data.
Proof.
  intros Hu. eexists _, _, _. split.
  { apply prep_table_sorted, sorted_keys_uniform, Hu. }
  split; [reflexivity|]. split; [reflexivity|].
  split; [by rewrite !length_fmap|]. split; [|split].
  - rewrite Forall_fmap. apply Forall_forall. intros key Hkey.
    split; [unfold datum_of; by rewrite length_fmap|].
    apply list_elem_of_filter in Hkey as [Hany _].
    unfold any in Hany. apply existsb_exists in Hany as (n & Hn & Hnz).
    exists n. split; [by apply list_elem_of_In|].
    by apply Z.eqb_neq, negb_true_iff.
  - rewrite Forall_fmap. apply Forall_forall. intros key _.
    unfold compose. cbv beta.
    by rewrite prep_table_metadatum_keys, meta_of_names.
  - apply sublist_filter.
Qed.

(** X17. Unless the rank dictionary is an empty [dict] while the tree is
    not empty, the metadata records that [prep_table] returns bind every
    active metadata column to the value that [write_table] prints in that
    column for the same feature key. *)
Theorem prep_table_metadata_values :
  uniform data ->
  rankdic <> Some ∅ \/ truthy tree = false ->
  exists dat features,
    prep_table lineage_str data samples tree rankdic namedic name_as_id
    = Return (dat, features, chosen,
              (fun key =>
                 (fun cv : string * string => (cv.1, PyStr cv.2))
                 <$> meta_of lineage_str tree rankdic namedic name_as_id key)
              <$> retained data chosen (keys_of data)).
Proof.
  intros Hu Hcond. eexists _, _.
  rewrite (prep_table_sorted _ _ _ _ _ _ _ _ (sorted_keys_uniform _ Hu)).
  do 2 f_equal. apply list_fmap_ext. intros i key _.
  by apply prep_table_metadatum_values.
Qed.

(** X18. A profile that has a plain feature key and a stratified one
    cannot be written: [write_table] prints the header and then raises
    [TypeError], and [prep_table] raises [TypeError]. *)
Theorem tables_mixed_keys (s1 s2 : string) (m1 m2 : counts)
    (f stratum g : string) :
  data !! s1 = Some m1 -> is_Some (m1 !! Plain f) ->
  data !! s2 = Some m2 -> is_Some (m2 !! Strat stratum g) ->
  write_table lineage_str data samples tree rankdic namedic name_as_id
  = ([join TAB header],
     Raise (TypeError "'<' not supported between instances"))
  /\ prep_table lineage_str data samples tree rankdic namedic name_as_id
     = Raise (TypeError "'<' not supported between instances").
Proof.
  intros Hs1 Hf Hs2 Hg.
  assert (Hmixed : mixed (elements (allkeys data)) = true).
  { unfold mixed. apply andb_true_intro. split; apply existsb_exists.
    - exists (Strat stratum g). split; [|done].
      apply list_elem_of_In, elem_of_elements, elem_of_allkeys. eauto.
    - exists (Plain f). split; [|done].
      apply list_elem_of_In, elem_of_elements, elem_of_allkeys. eauto. }
  unfold write_table, prep_table, sorted_keys. by rewrite Hmixed.
Qed.

(** X19. When every feature key of the profile has a count other than 0
    in a sample of the table, the two tables have the same rows: the rows
    that [write_table] prints are, in the same order, the labels that
    [prep_table] returns, each followed by the decimal counts of its row of
    the matrix and by the values of the metadata columns. *)
Theorem tables_same_rows :
  uniform data ->
  Forall (fun key => any (datum_of data active key) = true) (keys_of data) ->
  exists (dat : list (list Z)) (features : list string) metadata
      (rows : list (list string)),
    prep_table lineage_str data samples tree rankdic namedic name_as_id
    = Return (dat, features, active, metadata)
    /\ (write_table lineage_str data samples tree rankdic namedic
          name_as_id).1
       = join TAB header :: (join TAB <$> rows)
    /\ (fun r => firstn (S (List.length active)) r) <$> rows
       = zip_with (fun feature datum => feature :: (str <$> datum))
           features dat
    /\ List.length rows = List.length features.
Proof.
  intros Hu Hall.
  assert (Hkept : retained data active (keys_of data) = keys_of data).
  { unfold retained. clear Hu. induction Hall as [|key keys Hkey _ IH];
      [done|]. rewrite filter_cons, decide_True by done. by rewrite IH. }
  eexists _, _, _, ((fun key => row key) <$> keys_of data). split.
  { apply prep_table_sorted, sorted_keys_uniform, Hu. }
  rewrite (write_table_sorted _ _ _ _ _ _ _ _ (sorted_keys_uniform _ Hu)).
  change (prep_table_samples data samples) with active.
  rewrite Hkept. split; [by rewrite <- list_fmap_compose|]. split.
  - rewrite <- list_fmap_compose. clear.
    induction (keys_of data) as [|key keys IH]; [done|].
    cbn [fmap list_fmap zip_with]. rewrite <- IH. f_equal.
    unfold compose, row_of. cbn [app firstn]. f_equal.
    rewrite take_app_length'; [done|].
    unfold datum_of. by rewrite !length_fmap.
  - by rewrite !length_fmap.
Qed.

End more_tables.

(** X20. Taking more samples into the table never loses a feature: on a
    profile whose feature keys are all plain or all stratified, when the
    samples of one call of [prep_table] are among the samples of another,
    the labels of the first are a sublist of the labels of the second. *)
Theorem prep_table_more_samples
    (lineage_str : string -> dict -> option dict -> string)
    (data : profile) (samples1 samples2 : option (list string))
    (tree rankdic namedic : option dict) (name_as_id : bool) :
  uniform data ->
  (forall x, x ∈ prep_table_samples data samples1 ->
             x ∈ prep_table_samples data samples2) ->
  exists dat1 features1 metadata1 dat2 features2 metadata2,
    prep_table lineage_str data samples1 tree rankdic namedic name_as_id
    = Return (dat1, features1, prep_table_samples data samples1, metadata1)
    /\ prep_table lineage_str data samples2 tree rankdic namedic name_as_id
       = Return (dat2, features2, prep_table_samples data samples2,
                 metadata2)
    /\ features1 `sublist_of` features2.
Proof.
  intros Hu Hsub. eexists _, _, _, _, _, _.
  split; [apply prep_table_sorted, sorted_keys_uniform, Hu|].
  split; [apply prep_table_sorted, sorted_keys_uniform, Hu|].
  by apply fmap_sublist, retained_more.
Qed.

Lemma write_table_rows_witness :
  write_table Ex.lineage Ex.profile_strata (Some ["S2"]) None None None false
  = (join TAB (write_table_header
                 (write_table_samples Ex.profile_strata (Some ["S2"]))
                 None None None false)
     :: ((fun key =>
            join TAB
              (row_of Ex.lineage Ex.profile_strata
                 (write_table_samples Ex.profile_strata (Some ["S2"]))
                 None None None false key))
         <$> keys_of Ex.profile_strata),
     Return (List.length
               (write_table_samples Ex.profile_strata (Some ["S2"])),
             size (allkeys Ex.profile_strata))).
Proof.
  apply (proj1 (write_table_rows Ex.lineage Ex.profile_strata (Some ["S2"])
                  None None None false eq_refl)).
Defined.

Lemma prep_table_rows_witness :
  exists dat features metadata,
    prep_table Ex.lineage Ex.profile_two (Some ["S2"]) None
      (Some Ex.ranks_one) None false
    = Return (dat, features,
              prep_table_samples Ex.profile_two (Some ["S2"]), metadata)
    /\ List.length metadata = List.length dat
    /\ List.length features = List.length dat.
Proof.
  destruct (prep_table_rows Ex.lineage Ex.profile_two (Some ["S2"]) None
              (Some Ex.ranks_one) None false eq_refl)
    as (dat & features & metadata & Hprep & Hdat & Hfeatures & Hlen & _).
  exists dat, features, metadata. split; [exact Hprep|]. split; [exact Hlen|].
  rewrite Hdat, Hfeatures. by rewrite !length_fmap.
Defined.

Lemma prep_table_metadata_values_witness :
  exists dat features,
    prep_table Ex.lineage Ex.profile_two None (Some Ex.tree_one)
      (Some Ex.ranks_one) (Some Ex.names_one) false
    = Return (dat, features, prep_table_samples Ex.profile_two None,
              (fun key =>
                 (fun cv : string * string => (cv.1, PyStr cv.2))
                 <$> meta_of Ex.lineage (Some Ex.tree_one)
                       (Some Ex.ranks_one) (Some Ex.names_one) false key)
              <$> retained Ex.profile_two
                    (prep_table_samples Ex.profile_two None)
                    (keys_of Ex.profile_two)).
Proof.
  apply (prep_table_metadata_values Ex.lineage Ex.profile_two None
           (Some Ex.tree_one) (Some Ex.ranks_one) (Some Ex.names_one) false
           eq_refl).
  left. discriminate.
Defined.

Lemma tables_mixed_keys_witness :
  prep_table Ex.lineage Ex.profile_mixed None None None None false
  = Raise (TypeError "'<' not supported between instances").
Proof.
  apply (proj2 (tables_mixed_keys Ex.lineage Ex.profile_mixed None None None
                  None false "S1" "S1"
                  {[ Plain "f1" := 3; Strat "A" "f1" := 1 ]}
                  {[ Plain "f1" := 3; Strat "A" "f1" := 1 ]}
                  "f1" "A" "f1" eq_refl (ex_intro _ 3 eq_refl)
                  eq_refl (ex_intro _ 1 eq_refl))).
Defined.

Lemma tables_same_rows_witness :
  exists (dat : list (list Z)) (features : list string) metadata
      (rows : list (list string)),
    prep_table Ex.lineage Ex.profile_two None None None None false
    = Return (dat, features, write_table_samples Ex.profile_two None,
              metadata)
    /\ (write_table Ex.lineage Ex.profile_two None None None None false).1
       = join TAB (write_table_header
                     (write_table_samples Ex.profile_two None)
                     None None None false)
         :: (join TAB <$> rows)
    /\ (fun r =>
          firstn (S (List.length (write_table_samples Ex.profile_two None)))
            r) <$> rows
       = zip_with (fun feature datum => feature :: (str <$> datum))
           features dat
    /\ List.length rows = List.length features.
Proof.
  apply (tables_same_rows Ex.lineage Ex.profile_two None None None None false
           eq_refl).
  apply (bool_decide_unpack _). vm_compute. exact I.
Defined.

Lemma prep_table_more_samples_witness :
  exists dat1 features1 metadata1 dat2 features2 metadata2,
    prep_table Ex.lineage Ex.profile_two (Some ["S2"]) None None None false
    = Return (dat1, features1,
              prep_table_samples Ex.profile_two (Some ["S2"]), metadata1)
    /\ prep_table Ex.lineage Ex.profile_two None None None None false
       = Return (dat2, features2, prep_table_samples Ex.profile_two None,
                 metadata2)
    /\ features1 `sublist_of` features2.
Proof.
  apply (prep_table_more_samples Ex.lineage Ex.profile_two (Some ["S2"]) None
           None None None false eq_refl).
  intros x Hx.
  change (prep_table_samples Ex.profile_two (Some ["S2"])) with ["S2"] in Hx.
  apply list_elem_of_singleton in Hx. rewrite Hx.
  apply (bool_decide_unpack _). vm_compute. exact I.
Defined.

(** ** Counts in mapping records *)

Section counts.

Variable feat_n_cnt : string -> string * Z.
Variable sep : string.
Variable multi : option bool.

Lemma read_map_line_counts (line : string) :
  read_map_line feat_n_cnt sep multi true line
  = bind (read_map_line feat_n_cnt sep multi false line)
      (fun o => Return (prod_map id (with_counts feat_n_cnt) <$> o)).
Proof.
  unfold read_map_line. destruct (split sep (rstrip line)) as [row|e]; [|done].
  cbn [bind]. destruct (_ =? 1)%nat; [done|].
  destruct row as [|key values]; [done|].
  destruct multi as [[|]|]; [done| |];
    (destruct (_ && _); [done|]); by destruct values.
Qed.

(** X21. Counts only change the values: what [read_map] yields with
    counts is what it yields without counts, pair by pair, with
    [feat_n_cnt] applied to the value, or to every value in multi mode. The
    keys, the lines that are skipped and the way the generator ends are the
    same. *)
Theorem read_map_counts (fh : list string) :
  read_map feat_n_cnt sep multi true fh
  = (prod_map id (with_counts feat_n_cnt)
       <$> (read_map feat_n_cnt sep multi false fh).1,
     (read_map feat_n_cnt sep multi false fh).2).
Proof.
  induction fh as [|line fh IH]; [done|].
  cbn [read_map]. rewrite read_map_line_counts, IH.
  destruct (read_map_line feat_n_cnt sep multi false line) as [[kv|]|e];
    cbn [bind fmap option_fmap option_map]; [|done..].
  by destruct (read_map feat_n_cnt sep multi false fh).
Qed.

End counts.

(** ** Compressed files *)

Section compressed.
Open Scope string_scope.

Lemma rfind_app_None (c : ascii) (a b : string) :
  Posix.rfind c a = None -> Posix.rfind c b = None ->
  Posix.rfind c (a ++ b) = None.
Proof.
  intros Ha Hb. induction a as [|x a IH]; [done|].
  rewrite str_app_cons. cbn [Posix.rfind] in *.
  destruct (Posix.rfind c a); [done|]. rewrite IH by done.
  by destruct (Ascii.eqb x c).
Qed.

Lemma has_non_dot_app (a b : string) :
  Posix.has_non_dot a = true -> Posix.has_non_dot (a ++ b) = true.
Proof.
  induction a as [|x a IH]; [done|]. rewrite str_app_cons.
  cbn [Posix.has_non_dot]. destruct (negb (Ascii.eqb x ".")); [done|].
  apply IH.
Qed.

(** [posixpath.splitext] cuts before the last dot of a file name that has
    another character than dots before it. *)
Lemma splitext_app (a x : string) :
  char_free "/" a -> Posix.has_non_dot a = true ->
  char_free "." x -> char_free "/" x ->
  Posix.splitext (a ++ String "." x) = (a, String "." x).
Proof.
  unfold char_free. intros Ha Hdot Hx Hx'. unfold Posix.splitext.
  rewrite rfind_app by done.
  rewrite (rfind_app_None "/" a (String "." x)) by (done || by cbn; rewrite Hx').
  cbn [Nat.leb andb drop]. rewrite Nat.sub_0_r, str_take_app_length, Hdot.
  f_equal.
  replace (a ++ String "." x) with (a ++ String "." x ++ "")
    by (by rewrite str_app_nil_r).
  rewrite <- (str_app_nil_r (String "." x)) at 2.
  by rewrite str_drop_app_length.
Qed.

(** X22. Without an extension given and on POSIX file names,
    [file2stem] strips the last extension and, when this is one of the
    extensions of compressed files, the extension before it as well: a
    stem followed by an extension and by [.gz], [.bz2] or another key of
    [ZIPDIC] gives the stem again, and so does the stem followed by an
    extension that is not of a compressed file. *)
Theorem file2stem_compressed (stem e z : string) :
  char_free "/" stem -> Posix.has_non_dot stem = true ->
  char_free "." e -> char_free "/" e ->
  (z ∈ ZIPDIC ->
   file2stem Posix.splitext (stem ++ String "." e ++ z) None = Return stem)
  /\ (String "." e ∉ ZIPDIC ->
      file2stem Posix.splitext (stem ++ String "." e) None = Return stem).
Proof.
  intros Hstem Hdot He He'.
  assert (Hsplit : Posix.splitext (stem ++ String "." e) = (stem, String "." e))
    by (by apply splitext_app).
  split.
  - intros Hz. unfold file2stem.
    assert (Hz' : exists x, z = String "." x /\ char_free "." x
                            /\ char_free "/" x).
    { unfold ZIPDIC in Hz.
      repeat (apply elem_of_cons in Hz as [->|Hz]; [by eexists|]).
      by apply elem_of_nil in Hz. }
    destruct Hz' as (x & -> & Hx & Hx').
    replace (stem ++ String "." e ++ String "." x)
      with ((stem ++ String "." e) ++ String "." x)
      by (by rewrite str_app_assoc).
    rewrite splitext_app; [|apply rfind_app_None|by apply has_non_dot_app|..];
      try done.
    + rewrite bool_decide_true by done. by rewrite Hsplit.
    + unfold char_free in *. cbn [Posix.rfind]. by rewrite He'.
  - intros Hz. unfold file2stem. rewrite Hsplit.
    by rewrite bool_decide_false.
Qed.

End compressed.

Lemma file2stem_compressed_witness :
  file2stem Posix.splitext ("S01.R1" ++ String "." "tsv" ++ ".bz2") None
  = Return "S01.R1".
Proof.
  apply (proj1 (file2stem_compressed "S01.R1" "tsv" ".bz2"
                  eq_refl eq_refl eq_refl eq_refl)).
  apply (bool_decide_unpack _). vm_compute. exact I.
Defined.
